(** * Call session orchestrator and device preview controller

    A shallow embedding of [src/room/GroupCallView.tsx] and
    [src/room/VideoPreview.tsx].

    - The render body of [GroupCallView] is a pure function from the values
      the component reads to a tagged view.
    - The widget handlers and the leave callback are programs in a small
      monad that records every call to a collaborator in a time-stamped
      trace and stops where an awaited promise rejects.
    - [VideoPreview] is a render function over explicit hook state; its
      effects run when one of their dependencies changed, as React does. *)

From Stdlib Require Import ZArith Lia Bool String List.
From stdpp Require Import base option list gmap strings.
Import ListNotations.
Local Open Scope string_scope.

(** ** JavaScript values the code tests for truthiness or against [null] *)

(** A value of type [string | null | undefined], as the [JoinCall] payload
    fields are after the [as unknown as JoinCallData] cast. *)
Inductive JsString : Type :=
  | JsNull
  | JsUndefined
  | JsStr (s : string).

(** [x !== null] *)
Definition not_strictly_null (x : JsString) : bool :=
  match x with
  | JsNull => false
  | JsUndefined | JsStr _ => true
  end.

(** ["..." + x]: string conversion used by [+]. *)
Definition js_to_string (x : JsString) : string :=
  match x with
  | JsNull => "null"
  | JsUndefined => "undefined"
  | JsStr s => s
  end.

(** Truthiness of a [string | undefined]: [undefined] and the empty string
    are falsy. *)
Definition truthy (x : option string) : bool :=
  match x with
  | None => false
  | Some s => negb (String.eqb s "")
  end.

(** [a ?? b]: the right operand only when the left is null or undefined. *)
Definition nullish {A} (a b : option A) : option A :=
  match a with
  | Some _ => a
  | None => b
  end.

(** ** Data model *)

(** [DeviceChoices] of [../livekit/useLiveKit]. *)
Record DeviceChoices : Type := mkDeviceChoices {
  selectedId : string;
  enabled : bool;
}.

(** A property of a JavaScript object: the key may be missing, or present
    and holding [undefined], or present and holding a value. *)
Inductive Field (A : Type) : Type :=
  | Missing
  | Undefined
  | Holds (a : A).
Arguments Missing {A}.
Arguments Undefined {A}.
Arguments Holds {A} a.

(** Reading [o.k]: a missing key and a key holding [undefined] both read as
    [undefined]. *)
Definition read {A} (p : Field A) : option A :=
  match p with
  | Missing | Undefined => None
  | Holds a => Some a
  end.

(** [k in o] *)
Definition has_key {A} (p : Field A) : bool :=
  match p with
  | Missing => false
  | Undefined | Holds _ => true
  end.

(** [UserChoices = { audio?: DeviceChoices, video?: DeviceChoices }]. *)
Record UserChoices : Type := mkUserChoices {
  audio : Field DeviceChoices;
  video : Field DeviceChoices;
}.

(** [{} as UserChoices] *)
Definition emptyChoices : UserChoices :=
  {| audio := Missing; video := Missing |}.

(** Modelled from the spec: [GroupCallState] is declared in matrix-js-sdk and
    not in this repository; the spec lists the remote states as NotEntered,
    Entering and Entered.  The code only ever compares with [Entered]. *)
Inductive GroupCallState : Type :=
  | NotEntered
  | Entering
  | Entered.

Definition is_Entered (s : GroupCallState) : bool :=
  match s with
  | Entered => true
  | _ => false
  end.

(** ** GroupCallView: view selection *)

Module GroupCallView.

(** What the component returns. *)
Inductive View : Type :=
  | ErrorView (message : string)
  | ActiveCall (livekitServiceURL : string) (userChoices : UserChoices)
  | CallEndedView (isPasswordlessUser : bool)
  | Null
  | Loading
  | LobbyView.

(** The values the render body reads.  [error] is the message of the
    [Error] object when there is one; [analyticsEnabled] is
    [PosthogAnalytics.instance.isEnabled()]. *)
Record SessionViewState : Type := mkState {
  livekitServiceURL : option string;
  error : option string;
  state : GroupCallState;
  userChoices : option UserChoices;
  left : bool;
  preload : bool;
  isEmbedded : bool;
  isPasswordlessUser : bool;
  analyticsEnabled : bool;
}.

(** [groupCall.foci[0]?.livekitServiceUrl ?? Config.get().livekit.livekit_service_url] *)
Definition resolveServiceURL (focus0 config : option string) : option string :=
  nullish focus0 config.

(** The render body, lines 223-296. *)
Definition render (s : SessionViewState) : View :=
  if negb (truthy (livekitServiceURL s)) then
    ErrorView "No livekit_service_url defined"
  else
    match error s with
    | Some e => ErrorView e
    | None =>
        match is_Entered (state s), userChoices s with
        | true, Some choices =>
            ActiveCall (default "" (livekitServiceURL s)) choices
        | _, _ =>
            if left s then
              if isPasswordlessUser s
                 || (analyticsEnabled s && negb (isEmbedded s))
              then CallEndedView (isPasswordlessUser s)
              else Null
            else if preload s then Null
            else if isEmbedded s then Loading
            else LobbyView
        end
    end.

(** *** The decision table of the specification *)

(** The kinds of view the table names. *)
Inductive ViewTag : Type :=
  | TError
  | TActiveCall
  | TCallEnded
  | TNothing
  | TLoading
  | TLobby.

Definition tag (v : View) : ViewTag :=
  match v with
  | ErrorView _ => TError
  | ActiveCall _ _ => TActiveCall
  | CallEndedView _ => TCallEnded
  | Null => TNothing
  | Loading => TLoading
  | LobbyView => TLobby
  end.

(** A rule: a guard and the view it selects. *)
Record Rule : Type := mkRule {
  guard : SessionViewState -> bool;
  selects : SessionViewState -> ViewTag;
}.

(** The rules in the order the specification gives them; the last rule
    always matches. *)
Definition decisionTable : list Rule :=
  [ mkRule (fun s => negb (truthy (livekitServiceURL s))) (fun _ => TError);
    mkRule (fun s => bool_decide (is_Some (error s))) (fun _ => TError);
    mkRule (fun s => is_Entered (state s)
                     && bool_decide (is_Some (userChoices s)))
           (fun _ => TActiveCall);
    mkRule left
           (fun s => if isPasswordlessUser s
                        || (analyticsEnabled s && negb (isEmbedded s))
                     then TCallEnded else TNothing);
    mkRule preload (fun _ => TNothing);
    mkRule isEmbedded (fun _ => TLoading);
    mkRule (fun _ => true) (fun _ => TLobby) ].

(** First match wins. *)
Fixpoint firstMatch (rules : list Rule) (s : SessionViewState) : option ViewTag :=
  match rules with
  | [] => None
  | r :: rest => if guard r s then Some (selects r s) else firstMatch rest s
  end.

End GroupCallView.

(** ** Collaborators, calls and traces *)

Inductive MediaDeviceKind : Type :=
  | audioinput
  | videoinput
  | audiooutput.

(** [a === b] on device kinds. *)
Definition kind_eqb (a b : MediaDeviceKind) : bool :=
  match a, b with
  | audioinput, audioinput | videoinput, videoinput
  | audiooutput, audiooutput => true
  | _, _ => false
  end.

(** [MediaDeviceInfo] of the browser. *)
Record MediaDeviceInfo : Type := mkDevice {
  deviceId : string;
  kind : MediaDeviceKind;
  label : string;
}.

(** Modelled from the spec: [findDeviceByName] of [../media-utils] is not
    among the sources.  The spec has each named device resolved to a concrete
    device id against the live device list, a name that matches no enumerated
    device giving no id; the call sites pass the wanted kind, so the match is
    on kind and name.  A name that is not a string equals no label.  The
    handlers take the function from their environment; this is the one the
    examples run with. *)
Definition findDeviceByNameModel (name : JsString) (k : MediaDeviceKind)
    (devices : list MediaDeviceInfo) : option string :=
  match name with
  | JsStr n =>
      deviceId <$>
        List.find (fun d => kind_eqb (kind d) k && String.eqb (label d) n) devices
  | JsNull | JsUndefined => None
  end.

Inductive WidgetAction : Type :=
  | JoinCall
  | HangupCall.

(** Every call the handlers make to something outside the component. *)
Inductive Call : Type :=
  | GetLocalDevices
  | FindDeviceByName (name : JsString) (k : MediaDeviceKind)
  | LoggerWarn (msg : string)
  | LoggerDebug (msg : string)
  | SetUserChoices (choices : UserChoices)
  | Enter
  | Leave
  | CacheStartCall
  | CallStartedTrack (groupCallId : string)
  | CallEndedTrack (groupCallId : string) (participantCount : nat)
      (sendInstantly : bool)
  | PosthogLogout
  | SetAlwaysOnScreen (value : bool)
  | TransportReply (requestId : string)
  | TransportSend (action : WidgetAction)
  | SetLeft (value : bool)
  | SetTimeout (ms : N)
  | HistoryPush (path : string).

(** What a trace records: a call being made, and the handler resuming (or
    being abandoned) when a promise it awaits settles. *)
Inductive Event : Type :=
  | Invoked (c : Call)
  | Resolved (c : Call)
  | Rejected (c : Call)
  | AllResolved (cs : list Call)
  | SomeRejected (cs : list Call).

(** A trace in the order of occurrence, each event with the time in
    milliseconds at which it happened. *)
Definition Trace : Type := list (N * Event).

Definition events (t : Trace) : list Event := map snd t.

(** The world outside the component, as far as the handlers observe it. *)
Record Env : Type := mkEnv {
  widget : bool;                                (* [widget] is not null *)
  groupCallId : string;
  participants : gmap string (gmap string unit); (* member -> device -> state *)
  localDevices : list MediaDeviceInfo;          (* Room.getLocalDevices() *)
  findDeviceByName :                            (* of ../media-utils *)
    JsString -> MediaDeviceKind -> list MediaDeviceInfo -> option string;
  posthogEnabled : bool;                        (* PosthogAnalytics.instance.isEnabled() *)
  settles : Call -> bool;     (* whether the promise of a call resolves *)
  latency : Call -> N;        (* how long that promise takes to settle *)
}.

(** ** The handler monad: a clock, a trace, and rejection *)

Record World : Type := mkWorld {
  clock : N;
  history : list (N * Event);   (* most recent first *)
}.

Definition Async (A : Type) : Type := World -> World * option A.

Definition ret {A} (a : A) : Async A := fun w => (w, Some a).

Definition bind {A B} (m : Async A) (k : A -> Async B) : Async B :=
  fun w =>
    match m w with
    | (w', Some a) => k a w'
    | (w', None) => (w', None)
    end.

Declare Scope async_scope.
Delimit Scope async_scope with async.
Bind Scope async_scope with Async.
Notation "x ← m ; k" := (bind m (fun x => k))
  (at level 20, m at level 100, k at level 200, only parsing) : async_scope.
Notation "m ;; k" := (bind m (fun _ => k))
  (at level 100, k at level 200, right associativity) : async_scope.

Definition log (e : Event) (w : World) : World :=
  {| clock := clock w; history := (clock w, e) :: history w |}.

Definition advance (d : N) (w : World) : World :=
  {| clock := (clock w + d)%N; history := history w |}.

(** A call that is made and not awaited. *)
Definition invoke (c : Call) : Async unit :=
  fun w => (log (Invoked c) w, Some tt).

(** [await c()]: the call is made, the handler is suspended until the promise
    settles, and it resumes only when the promise resolved. *)
Definition await (env : Env) (c : Call) : Async unit :=
  fun w =>
    let w' := advance (latency env c) (log (Invoked c) w) in
    if settles env c then (log (Resolved c) w', Some tt)
    else (log (Rejected c) w', None).

(** [await new Promise((resolve) => window.setTimeout(resolve, ms))]: a timer
    fires no earlier than its delay and never rejects. *)
Definition sleep (env : Env) (ms : N) : Async unit :=
  fun w =>
    let w' := advance (ms + latency env (SetTimeout ms))
                      (log (Invoked (SetTimeout ms)) w) in
    (log (Resolved (SetTimeout ms)) w', Some tt).

Definition maxLatency (env : Env) (cs : list Call) : N :=
  fold_right (fun c acc => N.max (latency env c) acc) 0%N cs.

(** The latency of the promise that rejects first, among those of [cs] that
    reject. *)
Definition firstRejection (env : Env) (cs : list Call) : N :=
  match List.filter (fun c => negb (settles env c)) cs with
  | [] => 0%N
  | c :: rest =>
      fold_right (fun c' acc => N.min (latency env c') acc) (latency env c) rest
  end.

(** When [Promise.all] settles: with the last of its promises when all
    resolve, with the first rejection otherwise. *)
Definition settleDelay (env : Env) (cs : list Call) : N :=
  if forallb (settles env) cs then maxLatency env cs
  else firstRejection env cs.

(** [await Promise.all([c1(), c2(), ...])]: the array is built first, so every
    call is made, in order, before the handler is suspended; the handler
    resumes when all the promises resolved, and is abandoned as soon as one
    rejects. *)
Definition awaitAll (env : Env) (cs : list Call) : Async unit :=
  fun w =>
    let w1 := fold_left (fun acc c => log (Invoked c) acc) cs w in
    let w2 := advance (settleDelay env cs) w1 in
    if forallb (settles env) cs then (log (AllResolved cs) w2, Some tt)
    else (log (SomeRejected cs) w2, None).

Definition when (b : bool) (m : Async unit) : Async unit :=
  if b then m else ret tt.

(** Running a handler from time [t0]: its trace in order of occurrence. *)
Definition run {A} (t0 : N) (m : Async A) : Trace :=
  rev (history (fst (m {| clock := t0; history := [] |}))).

(** ** GroupCallView: widget handlers and lifecycle callbacks *)

Local Open Scope async_scope.

(** [JoinCallData] of [../widget]. *)
Record JoinCallData : Type := mkJoinCallData {
  audioInput : JsString;
  videoInput : JsString;
}.

(** The widget request a handler receives ([ev.detail]). *)
Record Request : Type := mkRequest {
  requestId : string;
  data : JoinCallData;
}.

Definition setAudio (c : UserChoices) (a : DeviceChoices) : UserChoices :=
  {| audio := Holds a; video := video c |}.

Definition setVideo (c : UserChoices) (v : DeviceChoices) : UserChoices :=
  {| audio := audio c; video := Holds v |}.

(** [onJoin], lines 97-146. *)
Definition onJoin (env : Env) (ev : Request) : Async unit :=
  await env GetLocalDevices;;
  let devices := localDevices env in
  let audioInput := audioInput (data ev) in
  let videoInput := videoInput (data ev) in
  let newChoices := emptyChoices in
  newChoices ←
    (if not_strictly_null audioInput then
       invoke (FindDeviceByName audioInput audioinput);;
       let deviceId := findDeviceByName env audioInput audioinput devices in
       if negb (truthy deviceId) then
         invoke (LoggerWarn ("Unknown audio input: " ++ js_to_string audioInput));;
         ret newChoices
       else
         invoke (LoggerDebug ("Found audio input ID " ++ default "" deviceId
                              ++ " for name " ++ js_to_string audioInput));;
         ret (setAudio newChoices
                {| selectedId := default "" deviceId; enabled := true |})
     else ret newChoices);
  newChoices ←
    (if not_strictly_null videoInput then
       invoke (FindDeviceByName videoInput videoinput);;
       let deviceId := findDeviceByName env videoInput videoinput devices in
       if negb (truthy deviceId) then
         invoke (LoggerWarn ("Unknown video input: " ++ js_to_string videoInput));;
         ret newChoices
       else
         invoke (LoggerDebug ("Found video input ID " ++ default "" deviceId
                              ++ " for name " ++ js_to_string videoInput));;
         ret (setVideo newChoices
                {| selectedId := default "" deviceId; enabled := true |})
     else ret newChoices);
  invoke (SetUserChoices newChoices);;
  await env Enter;;
  invoke CacheStartCall;;
  invoke (CallStartedTrack (groupCallId env));;
  awaitAll env [SetAlwaysOnScreen true; TransportReply (requestId ev)].

(** The effect of lines 94-153: the handler is registered for [JoinCall]
    only with a widget and in preload mode. *)
Definition joinListener (env : Env) (preload : bool)
    : option (Request -> Async unit) :=
  if widget env && preload then Some (onJoin env) else None.

(** The effect of lines 155-163: embedded and not preloading. *)
Definition enterEmbedded (env : Env) (isEmbedded preload : bool) : Async unit :=
  when (isEmbedded && negb preload)
    (invoke Enter;;
     invoke CacheStartCall;;
     invoke (CallStartedTrack (groupCallId env))).

(** [onEnter] of the lobby, lines 288-291. *)
Definition onEnter (choices : UserChoices) : Async unit :=
  invoke (SetUserChoices choices);;
  invoke Enter.

(** The loop of lines 173-176 over [groupCall.participants.values()]. *)
Definition participantCount (ps : gmap string (gmap string unit)) : nat :=
  map_fold (fun _ deviceMap count => count + size deviceMap) 0 ps.

(** [onLeave], lines 170-203. *)
Definition onLeave (env : Env) (isPasswordlessUser isEmbedded : bool)
    : Async unit :=
  invoke (SetLeft true);;
  let participantCount := participantCount (participants env) in
  let sendInstantly := widget env in
  invoke (CallEndedTrack (groupCallId env) participantCount sendInstantly);;
  invoke Leave;;
  when (widget env)
    (sleep env 10;;
     invoke (SetAlwaysOnScreen false);;
     invoke PosthogLogout;;
     invoke (TransportSend HangupCall));;
  when (negb isPasswordlessUser && negb isEmbedded && negb (posthogEnabled env))
    (invoke (HistoryPush "/")).

(** [onHangup], lines 207-211. *)
Definition onHangup (env : Env) (ev : Request) : Async unit :=
  invoke Leave;;
  await env (TransportReply (requestId ev));;
  invoke (SetAlwaysOnScreen false).

(** The effect of lines 205-217: the handler is registered for [HangupCall]
    only with a widget and once the call is entered. *)
Definition hangupListener (env : Env) (state : GroupCallState)
    : option (Request -> Async unit) :=
  if widget env && is_Entered state then Some (onHangup env) else None.

(** *** Reading traces *)

Definition isCallStarted (e : Event) : bool :=
  match e with
  | Invoked (CallStartedTrack _) => true
  | _ => false
  end.

Definition isCallEnded (e : Event) : bool :=
  match e with
  | Invoked (CallEndedTrack _ _ _) => true
  | _ => false
  end.

Definition isEnterInvoked (e : Event) : bool :=
  match e with
  | Invoked Enter => true
  | _ => false
  end.

Definition isEnterResolved (e : Event) : bool :=
  match e with
  | Resolved Enter => true
  | _ => false
  end.

Definition isLeaveInvoked (e : Event) : bool :=
  match e with
  | Invoked Leave => true
  | _ => false
  end.

Definition isReply (e : Event) : bool :=
  match e with
  | Invoked (TransportReply _) => true
  | _ => false
  end.

Definition isLookup (k : MediaDeviceKind) (e : Event) : bool :=
  match e with
  | Invoked (FindDeviceByName _ k') => kind_eqb k k'
  | _ => false
  end.

Definition count (p : Event -> bool) (t : Trace) : nat :=
  length (filter (fun e => p e = true) (events t)).

(** The time of the first event satisfying [p]. *)
Definition timeOf (p : Event -> bool) (t : Trace) : option N :=
  fst <$> List.find (fun te => p (snd te)) t.

(** The choices a handler stored with [setUserChoices]. *)
Definition storedChoices (t : Trace) : option UserChoices :=
  match List.find (fun e => match e with
                            | Invoked (SetUserChoices _) => true
                            | _ => false
                            end) (events t) with
  | Some (Invoked (SetUserChoices c)) => Some c
  | _ => None
  end.

(** [e1] occurs in the trace and some occurrence of [e2] comes later. *)
Definition precedes (e1 e2 : Event) (t : Trace) : Prop :=
  exists i j, i < j /\ events t !! i = Some e1 /\ events t !! j = Some e2.

Local Close Scope async_scope.

(** ** VideoPreview *)

Module VideoPreview.

(** The value of the default-devices setting ([useDefaultDevices()[0]]). *)
Record DefaultDevices : Type := mkDefaultDevices {
  audioinput : option string;
  videoinput : option string;
  audiooutput : option string;
}.

(** [Track.Kind] *)
Inductive TrackKind : Type :=
  | Audio
  | Video.

Definition isVideo (k : TrackKind) : bool :=
  match k with
  | Video => true
  | Audio => false
  end.

Definition isAudio (k : TrackKind) : bool :=
  match k with
  | Audio => true
  | Video => false
  end.

(** A local track: its kind and the device id it reports, if any yet. *)
Record LocalTrack : Type := mkTrack {
  kind : TrackKind;
  trackDeviceId : option string;
}.

(** The options [usePreviewTracks] is given. *)
Record PreviewOptions : Type := mkOptions {
  audioDeviceId : option string;
  videoDeviceId : option string;
}.

(** The dependency array of the effect of lines 107-130. *)
Record Deps : Type := mkDeps {
  dep_onUserChoicesChanged : nat;
  dep_videoSelectedId : option string;
  dep_videoEnabled : bool;
  dep_audioSelectedId : option string;
  dep_audioEnabled : bool;
}.

#[global] Instance Deps_eq_dec : EqDecision Deps.
Proof. solve_decision. Defined.

(** What the component keeps between renders. *)
Record Hooks : Type := mkHooks {
  videoEnabled : bool;                             (* useState(true) *)
  audioEnabled : bool;                             (* useState(true) *)
  initialDefaultDevices : option DefaultDevices;   (* the useRef cell *)
  choicesDeps : option Deps;    (* dependencies at the previous render *)
}.

(** Before the first render. *)
Definition mount : Hooks :=
  {| videoEnabled := true; audioEnabled := true;
     initialDefaultDevices := None; choicesDeps := None |}.

(** What a render reads from the props and from hooks outside this file. *)
Record Inputs : Type := mkInputs {
  onUserChoicesChanged : nat;          (* identity of the callback prop *)
  defaultDevices : DefaultDevices;     (* useDefaultDevices()[0] *)
  tracks : option (list LocalTrack);   (* what usePreviewTracks returned *)
  videoIn_selectedId : option string;  (* mediaSwitcher.videoIn.selectedId *)
  audioIn_selectedId : option string;  (* mediaSwitcher.audioIn.selectedId *)
}.

(** What a render hands to its collaborators. *)
Record Rendered : Type := mkRendered {
  previewOptions : PreviewOptions;     (* argument of usePreviewTracks *)
  requestPermissions : bool;           (* argument of useMediaDevicesSwitcher *)
  emitted : option UserChoices;        (* the call of onUserChoicesChanged *)
  avatarShown : bool;
}.

(** [useRef(initial)]: the cell takes [initial] at the first render and is
    returned unchanged at every later one. *)
Definition useRef {A} (cell : option A) (initial : A) : A :=
  match cell with
  | None => initial
  | Some current => current
  end.

(** [tracks?.filter((t) => t.kind === k)[0]] *)
Definition trackOfKind (p : TrackKind -> bool) (ts : option (list LocalTrack))
    : option LocalTrack :=
  match ts with
  | None => None
  | Some l => head (List.filter (fun t => p (kind t)) l)
  end.

(** [createChoices], lines 109-119. *)
Definition createChoices (enabled : bool) (deviceId : option string)
    : Field DeviceChoices :=
  if truthy deviceId
  then Holds {| selectedId := default "" deviceId; enabled := enabled |}
  else Undefined.

(** The object literal of lines 120-123. *)
Definition choicesOf (videoEnabled audioEnabled : bool)
    (videoSelectedId audioSelectedId : option string) : UserChoices :=
  {| video := createChoices videoEnabled videoSelectedId;
     audio := createChoices audioEnabled audioSelectedId |}.

(** [useEffect(f, deps)]: [f] runs after the first render and after every
    render whose dependencies differ from those of the previous one. *)
Definition effectRuns (previous : option Deps) (current : Deps) : bool :=
  match previous with
  | None => true
  | Some d => negb (bool_decide (d = current))
  end.

(** One render of the component, lines 46-130 and 165: the ref cell, the
    arguments of the two hooks, the effect that emits the choices, and whether
    the avatar is shown.  The effects that adopt a track's device id and that
    attach the video element are left out. *)
Definition render (h : Hooks) (i : Inputs) : Hooks * Rendered :=
  let initial := useRef (initialDefaultDevices h) (defaultDevices i) in
  let options := {| audioDeviceId := audioinput initial;
                    videoDeviceId := videoinput initial |} in
  let videoTrack := trackOfKind isVideo (tracks i) in
  let requestPermissions := bool_decide (is_Some videoTrack) in
  let deps := {| dep_onUserChoicesChanged := onUserChoicesChanged i;
                 dep_videoSelectedId := videoIn_selectedId i;
                 dep_videoEnabled := videoEnabled h;
                 dep_audioSelectedId := audioIn_selectedId i;
                 dep_audioEnabled := audioEnabled h |} in
  let emitted :=
    if effectRuns (choicesDeps h) deps
    then Some (choicesOf (videoEnabled h) (audioEnabled h)
                 (videoIn_selectedId i) (audioIn_selectedId i))
    else None in
  ({| videoEnabled := videoEnabled h;
      audioEnabled := audioEnabled h;
      initialDefaultDevices := Some initial;
      choicesDeps := Some deps |},
   {| previewOptions := options;
      requestPermissions := requestPermissions;
      emitted := emitted;
      avatarShown := if bool_decide (is_Some videoTrack)
                     then negb (videoEnabled h) else true |}).

(** What happens to a mounted component: it renders again with new values
    from its hooks, or the user presses one of the two buttons. *)
Inductive Step : Type :=
  | Render (i : Inputs)
  | PressMic               (* setAudioEnabled(!audioEnabled) *)
  | PressVideo.            (* setVideoEnabled(!videoEnabled) *)

(** The [onPress] of a button is made by a render and sets the negation of
    the flag that render read (lines 177 and 181): what it negates is the
    flag kept with the dependencies of the previous render, not the state as
    it is now.  Before the first render there is no button to press. *)
Definition step (h : Hooks) (s : Step) : Hooks * option Rendered :=
  match s with
  | Render i => let (h', r) := render h i in (h', Some r)
  | PressMic =>
      ({| videoEnabled := videoEnabled h;
          audioEnabled := match choicesDeps h with
                          | Some d => negb (dep_audioEnabled d)
                          | None => audioEnabled h
                          end;
          initialDefaultDevices := initialDefaultDevices h;
          choicesDeps := choicesDeps h |}, None)
  | PressVideo =>
      ({| videoEnabled := match choicesDeps h with
                          | Some d => negb (dep_videoEnabled d)
                          | None => videoEnabled h
                          end;
          audioEnabled := audioEnabled h;
          initialDefaultDevices := initialDefaultDevices h;
          choicesDeps := choicesDeps h |}, None)
  end.

(** A run: the hooks at its end and what every render handed out, in order. *)
Fixpoint runFrom (h : Hooks) (steps : list Step) : Hooks * list Rendered :=
  match steps with
  | [] => (h, [])
  | s :: rest =>
      let (h', r) := step h s in
      let (h'', rs) := runFrom h' rest in
      (h'', match r with Some x => x :: rs | None => rs end)
  end.

(** Modelled from the spec: [useMediaDevicesSwitcher] of
    [../livekit/useMediaDevicesSwitcher] is not among the sources.  The spec
    has the switcher request device-enumeration permissions only if it is
    allowed to, which is what its third argument says; so a render makes one
    request when the argument is true and none when it is false. *)
Definition switcherPermissionRequests (requestPermissions : bool) : nat :=
  if requestPermissions then 1 else 0.

(** The enumeration-permission requests made over a run. *)
Definition permissionRequests (rs : list Rendered) : nat :=
  fold_right (fun r n => switcherPermissionRequests (requestPermissions r) + n)
             0 rs.

(** Whether a step is a render at which a video track exists. *)
Definition hasVideoTrack (s : Step) : bool :=
  match s with
  | Render i => bool_decide (is_Some (trackOfKind isVideo (tracks i)))
  | _ => false
  end.

(** The emissions of a run, in order. *)
Definition emissions (rs : list Rendered) : list UserChoices :=
  omap emitted rs.

End VideoPreview.

(** ** Trace predicates used by the statements *)

(** In [l], every event satisfying [p] comes after one satisfying [q];
    [seen] says whether such a one has already gone by. *)
Fixpoint onlyAfter (p q : Event -> bool) (seen : bool) (l : list Event) : bool :=
  match l with
  | [] => true
  | e :: rest => (negb (p e) || seen) && onlyAfter p q (seen || q e) rest
  end.

(** What [onJoin] does for one medium: the calls it makes ... *)
Definition lookupEvents (env : Env) (medium : string) (k : MediaDeviceKind)
    (input : JsString) (devices : list MediaDeviceInfo) : list Event :=
  if not_strictly_null input then
    [ Invoked (FindDeviceByName input k);
      if truthy (findDeviceByName env input k devices)
      then Invoked (LoggerDebug ("Found " ++ medium ++ " input ID "
                                 ++ default "" (findDeviceByName env input k devices)
                                 ++ " for name " ++ js_to_string input))
      else Invoked (LoggerWarn ("Unknown " ++ medium ++ " input: "
                                ++ js_to_string input)) ]
  else [].

(** ... and the property it leaves in [newChoices]. *)
Definition lookupChoice (env : Env) (k : MediaDeviceKind) (input : JsString)
    (devices : list MediaDeviceInfo) : Field DeviceChoices :=
  if not_strictly_null input && truthy (findDeviceByName env input k devices)
  then Holds {| selectedId := default "" (findDeviceByName env input k devices);
                enabled := true |}
  else Missing.

Definition joinChoices (env : Env) (ev : Request) : UserChoices :=
  {| audio := lookupChoice env audioinput (audioInput (data ev)) (localDevices env);
     video := lookupChoice env videoinput (videoInput (data ev)) (localDevices env) |}.

(** Events that all happen at time [t]. *)
Definition stamp (t : N) (l : list Event) : Trace := map (pair t) l.

(** ** Definitions used by the statements and proofs *)

(** The example environment of the scenarios: one microphone, every promise
    resolves after 3 ms, two members with three devices in the call. *)
Definition exampleEnv : Env :=
  {| widget := true;
     groupCallId := "call-1";
     participants :=
       {[ "@alice:example.org" := {[ "DEVICE1" := tt; "DEVICE2" := tt ]};
          "@bob:example.org" := {[ "DEVICE3" := tt ]} ]};
     localDevices := [ mkDevice "mic-1" audioinput "Built-in Mic" ];
     findDeviceByName := findDeviceByNameModel;
     posthogEnabled := false;
     settles := fun _ => true;
     latency := fun _ => 3%N |}.

(** The request of scenario B. *)
Definition exampleJoin : Request :=
  mkRequest "request-1" (mkJoinCallData (JsStr "Built-in Mic") JsNull).

(** Case analysis on everything the trace of [onJoin] branches on. *)
Ltac join_cases env ev :=
  unfold lookupEvents, events, stamp;
  destruct (settles env GetLocalDevices);
  destruct (not_strictly_null (audioInput (data ev)));
  destruct (truthy (findDeviceByName env (audioInput (data ev)) audioinput
                      (localDevices env)));
  destruct (not_strictly_null (videoInput (data ev)));
  destruct (truthy (findDeviceByName env (videoInput (data ev)) videoinput
                      (localDevices env)));
  destruct (settles env Enter);
  simpl;
  repeat match goal with
         | |- context [settles env ?c] => destruct (settles env c); simpl
         end.

(** The [HangupCall] notification to the host. *)
Definition isHangupSent (e : Event) : bool :=
  match e with
  | Invoked (TransportSend HangupCall) => true
  | _ => false
  end.

(** The options built from the default devices [d]. *)
Definition frozenOptions (d : VideoPreview.DefaultDevices)
    : VideoPreview.PreviewOptions :=
  {| VideoPreview.audioDeviceId := VideoPreview.audioinput d;
     VideoPreview.videoDeviceId := VideoPreview.videoinput d |}.

(** Default devices of the examples. *)
Definition exampleDefaults : VideoPreview.DefaultDevices :=
  VideoPreview.mkDefaultDevices (Some "mic-1") (Some "cam-1") None.

(** A run in which audio is acquired and video is not (yet). *)
Definition audioOnlyRun : list VideoPreview.Step :=
  [ VideoPreview.Render
      (VideoPreview.mkInputs 0 exampleDefaults None None None);
    VideoPreview.PressMic;
    VideoPreview.Render
      (VideoPreview.mkInputs 0 exampleDefaults
         (Some [VideoPreview.mkTrack VideoPreview.Audio (Some "mic-1")])
         None (Some "mic-1")) ].

(** The latest of [l], or [previous] when [l] is empty. *)
Definition lastOr {A} (previous : option A) (l : list A) : option A :=
  match last l with
  | Some x => Some x
  | None => previous
  end.

(** The choices that go with a dependency array. *)
Definition choicesOfDeps (d : VideoPreview.Deps) : UserChoices :=
  VideoPreview.choicesOf
    (VideoPreview.dep_videoEnabled d) (VideoPreview.dep_audioEnabled d)
    (VideoPreview.dep_videoSelectedId d) (VideoPreview.dep_audioSelectedId d).

(** The latest emission is the one computed from the dependencies of the
    latest render. *)
Definition upToDate (h : VideoPreview.Hooks) (latest : option UserChoices)
    : Prop :=
  forall d, VideoPreview.choicesDeps h = Some d -> latest = Some (choicesOfDeps d).

(** The entry the specification asks for, read from an emitted object: none
    when the device id is unresolved (undefined or empty), otherwise that id
    paired with the flag. *)
Definition expectedEntry (flag : bool) (id : option string)
    : option DeviceChoices :=
  match id with
  | None => None
  | Some s =>
      if String.eqb s "" then None
      else Some {| selectedId := s; enabled := flag |}
  end.

(** A warning of [onJoin] about the named medium. *)
Definition isWarnFor (medium : string) (e : Event) : bool :=
  match e with
  | Invoked (LoggerWarn msg) =>
      String.prefix ("Unknown " ++ medium ++ " input: ") msg
  | _ => false
  end.

(** A request naming two devices that are not there. *)
Definition unknownJoin : Request :=
  mkRequest "request-2" (mkJoinCallData (JsStr "USB Mic") (JsStr "USB Cam")).

(** Case analysis on lookups found or not and on promises settling. *)
Ltac decide_ifs env :=
  simpl;
  repeat match goal with
         | |- context [truthy ?x] => destruct (truthy x); simpl
         | |- context [settles env ?c] => destruct (settles env c); simpl
         end.

(** Membership in a list written out. *)
Ltac in_list :=
  rewrite ?in_app_iff; simpl; auto 20.

(** A request whose audio field is absent and whose video field is null. *)
Definition undefinedJoin : Request :=
  mkRequest "request-3" (mkJoinCallData JsUndefined JsNull).

(** ** React state of GroupCallView *)

(** [setUserChoices] and [setLeft] are the two state setters of the component
    (lines 167 and 219); every other event leaves its state as it is. *)
Definition reduce (s : GroupCallView.SessionViewState) (e : Event)
    : GroupCallView.SessionViewState :=
  match e with
  | Invoked (SetUserChoices c) =>
      GroupCallView.mkState
        (GroupCallView.livekitServiceURL s) (GroupCallView.error s)
        (GroupCallView.state s) (Some c) (GroupCallView.left s)
        (GroupCallView.preload s) (GroupCallView.isEmbedded s)
        (GroupCallView.isPasswordlessUser s) (GroupCallView.analyticsEnabled s)
  | Invoked (SetLeft b) =>
      GroupCallView.mkState
        (GroupCallView.livekitServiceURL s) (GroupCallView.error s)
        (GroupCallView.state s) (GroupCallView.userChoices s) b
        (GroupCallView.preload s) (GroupCallView.isEmbedded s)
        (GroupCallView.isPasswordlessUser s) (GroupCallView.analyticsEnabled s)
  | _ => s
  end.

(** The state of the component after a handler ran. *)
Definition afterHandler (s : GroupCallView.SessionViewState) (t : Trace)
    : GroupCallView.SessionViewState :=
  fold_left reduce (events t) s.

(** The call object reports a new state ([useGroupCall], line 67). *)
Definition withState (st : GroupCallState) (s : GroupCallView.SessionViewState)
    : GroupCallView.SessionViewState :=
  GroupCallView.mkState
    (GroupCallView.livekitServiceURL s) (GroupCallView.error s)
    st (GroupCallView.userChoices s) (GroupCallView.left s)
    (GroupCallView.preload s) (GroupCallView.isEmbedded s)
    (GroupCallView.isPasswordlessUser s) (GroupCallView.analyticsEnabled s).

Definition isSetUserChoices (e : Event) : bool :=
  match e with
  | Invoked (SetUserChoices _) => true
  | _ => false
  end.

Definition isAlwaysOnScreen (e : Event) : bool :=
  match e with
  | Invoked (SetAlwaysOnScreen _) => true
  | _ => false
  end.

(** A call to the widget API, to analytics logout or to a timer. *)
Definition isWidgetCall (e : Event) : bool :=
  match e with
  | Invoked (SetAlwaysOnScreen _) | Invoked (TransportSend _)
  | Invoked (TransportReply _) | Invoked PosthogLogout
  | Invoked (SetTimeout _) | Resolved (SetTimeout _) => true
  | _ => false
  end.

(** An environment without a widget, otherwise like [exampleEnv]. *)
Definition standaloneEnv : Env :=
  {| widget := false;
     groupCallId := groupCallId exampleEnv;
     participants := participants exampleEnv;
     localDevices := localDevices exampleEnv;
     findDeviceByName := findDeviceByName exampleEnv;
     posthogEnabled := false;
     settles := fun _ => true;
     latency := fun _ => 3%N |}.

(** [exampleEnv] with promises that settle as [f] says. *)
Definition exampleEnvSettling (f : Call -> bool) : Env :=
  {| widget := true;
     groupCallId := groupCallId exampleEnv;
     participants := participants exampleEnv;
     localDevices := localDevices exampleEnv;
     findDeviceByName := findDeviceByName exampleEnv;
     posthogEnabled := false;
     settles := f;
     latency := fun _ => 3%N |}.

(** Every promise resolves but the one of [Room.getLocalDevices()]. *)
Definition withoutDevices (c : Call) : bool :=
  match c with
  | GetLocalDevices => false
  | _ => true
  end.

(** Every promise resolves but the one of [enter()]. *)
Definition enterRejects (c : Call) : bool :=
  match c with
  | Enter => false
  | _ => true
  end.

(** Every promise resolves but the one of the reply. *)
Definition replyRejects (c : Call) : bool :=
  match c with
  | TransportReply _ => false
  | _ => true
  end.

(** A state in which the lobby is shown. *)
Definition lobbyState : GroupCallView.SessionViewState :=
  GroupCallView.mkState (Some "wss://sfu.example.org") None NotEntered None
    false false false false false.

(** ** Effects with a cleanup *)

Module React.
Section Effect.
Context {R D A : Type} `{EqDecision D}.

(** An effect is given by the dependencies it reads off a render, by what it
    does when it runs and by what the cleanup it returns does. *)
Variable key : R -> D.
Variable setup : R -> list A.
Variable cleanup : R -> list A.

(** After a render: the effect runs at the first render and whenever the
    dependencies differ from those of the render at which it last ran; the
    cleanup of that earlier run goes first. *)
Definition commit (ran : option R) (r : R) : option R * list A :=
  match ran with
  | None => (Some r, setup r)
  | Some r0 =>
      if bool_decide (key r0 = key r) then (Some r0, [])
      else (Some r, (cleanup r0 ++ setup r)%list)
  end.

(** At unmount the cleanup of the last run is called. *)
Definition unmount (ran : option R) : list A :=
  match ran with
  | None => []
  | Some r0 => cleanup r0
  end.

(** A sequence of renders of a mounted component. *)
Fixpoint renderAll (ran : option R) (renders : list R) : option R * list A :=
  match renders with
  | [] => (ran, [])
  | r :: rest =>
      let (ran', done) := commit ran r in
      let (ran'', more) := renderAll ran' rest in
      (ran'', (done ++ more)%list)
  end.

(** From mount to unmount. *)
Definition lifetime (renders : list R) : list A :=
  let (ran, done) := renderAll None renders in (done ++ unmount ran)%list.

End Effect.
End React.

(** ** GroupCallView: effects *)

Module Lifecycle.

(** What the effects of [GroupCallView] read at a render.  Objects and
    callbacks are compared by identity, which a number stands for. *)
Record Render : Type := mkRender {
  groupCall : nat;
  enter : nat;
  leave : nat;
  state : GroupCallState;
  preload : bool;
  isEmbedded : bool;
}.

#[global] Instance GroupCallState_eq_dec : EqDecision GroupCallState.
Proof. solve_decision. Defined.

(** A listener function: the closure made by one run of an effect. *)
Inductive Listener : Type :=
  | OnJoin (groupCall enter : nat)
  | OnHangup (leave : nat).

#[global] Instance Listener_eq_dec : EqDecision Listener.
Proof. solve_decision. Defined.

#[global] Instance WidgetAction_eq_dec : EqDecision WidgetAction.
Proof. solve_decision. Defined.

(** What the effects do to the window and to [widget.lazyActions]. *)
Inductive Action : Type :=
  | AssignWindowGroupCall (g : nat)
  | DeleteWindowGroupCall
  | On (a : WidgetAction) (l : Listener)
  | Once (a : WidgetAction) (l : Listener)
  | Off (a : WidgetAction) (l : Listener)
  | Emit (a : WidgetAction).      (* the host's command is delivered *)

(** The effect of lines 78-83. *)
Definition windowKey (r : Render) : nat := groupCall r.
Definition windowSetup (r : Render) : list Action :=
  [AssignWindowGroupCall (groupCall r)].
Definition windowCleanup (r : Render) : list Action :=
  [DeleteWindowGroupCall].

(** The effect of lines 94-153, as far as the registration goes. *)
Definition joinKey (r : Render) : nat * bool * nat :=
  (groupCall r, preload r, enter r).
Definition joinSetup (env : Env) (r : Render) : list Action :=
  if widget env && preload r
  then [On JoinCall (OnJoin (groupCall r) (enter r))] else [].
Definition joinCleanup (env : Env) (r : Render) : list Action :=
  if widget env && preload r
  then [Off JoinCall (OnJoin (groupCall r) (enter r))] else [].

(** The effect of lines 205-217, as far as the registration goes. *)
Definition hangupKey (r : Render) : nat * GroupCallState * nat :=
  (groupCall r, state r, leave r).
Definition hangupSetup (env : Env) (r : Render) : list Action :=
  if widget env && is_Entered (state r)
  then [Once HangupCall (OnHangup (leave r))] else [].
Definition hangupCleanup (env : Env) (r : Render) : list Action :=
  if widget env && is_Entered (state r)
  then [Off HangupCall (OnHangup (leave r))] else [].

(** The effect of lines 155-163; it returns no cleanup. *)
Definition embeddedKey (r : Render) : nat * bool * bool * nat :=
  (groupCall r, isEmbedded r, preload r, enter r).
Definition embeddedSetup (env : Env) (r : Render) : list Event :=
  events (run 0 (enterEmbedded env (isEmbedded r) (preload r))).
Definition embeddedCleanup (r : Render) : list Event := [].

(** [window.groupCall] after some actions. *)
Definition windowStep (w : option nat) (a : Action) : option nat :=
  match a with
  | AssignWindowGroupCall g => Some g
  | DeleteWindowGroupCall => None
  | _ => w
  end.

(** A listener an emitter holds: for which action, which function, and
    whether it was registered with [once]. *)
Record Held : Type := mkHeld {
  heldAction : WidgetAction;
  heldListener : Listener;
  heldOnce : bool;
}.

(** Removing the most recently added element that satisfies [p]. *)
Fixpoint removeLastWhere {A} (p : A -> bool) (l : list A) : list A :=
  match l with
  | [] => []
  | y :: rest =>
      if existsb p rest then y :: removeLastWhere p rest
      else if p y then rest else y :: rest
  end.

(** The registration of [l] for [w], however it was made. *)
Definition isFor (w : WidgetAction) (l : Listener) (x : Held) : bool :=
  bool_decide (heldAction x = w) && bool_decide (heldListener x = l).

(** The listeners an event emitter holds after some actions: [on] and [once]
    add a listener at the end, [off] removes its most recent registration,
    and the delivery of an event removes the listeners registered for it with
    [once]. *)
Definition emitterStep (ls : list Held) (a : Action) : list Held :=
  match a with
  | On w l => (ls ++ [mkHeld w l false])%list
  | Once w l => (ls ++ [mkHeld w l true])%list
  | Off w l => removeLastWhere (isFor w l) ls
  | Emit w =>
      List.filter
        (fun x => negb (bool_decide (heldAction x = w) && heldOnce x)) ls
  | _ => ls
  end.

(** What happens to the mounted component as far as the [HangupCall] effect
    goes: it renders, or the host's command for an action is delivered. *)
Inductive Occurrence : Type :=
  | Rendered (r : Render)
  | Delivered (a : WidgetAction).

(** The actions of the [HangupCall] effect and of the deliveries over a
    sequence of occurrences. *)
Fixpoint hangupLife (env : Env) (ran : option Render) (os : list Occurrence)
    : option Render * list Action :=
  match os with
  | [] => (ran, [])
  | Rendered r :: rest =>
      let (ran', done) :=
        React.commit hangupKey (hangupSetup env) (hangupCleanup env) ran r in
      let (ran'', more) := hangupLife env ran' rest in
      (ran'', (done ++ more)%list)
  | Delivered a :: rest =>
      let (ran'', more) := hangupLife env ran rest in
      (ran'', Emit a :: more)
  end.

End Lifecycle.

(** ** VideoPreview: the other two effects *)

Module Surface.

(** What the effect of lines 150-159 reads at a render: the video track (by
    identity) and whether the video element is there. *)
Record Render : Type := mkRender {
  videoTrack : option nat;
  videoElCurrent : bool;
}.

Inductive Action : Type :=
  | Unmute (t : nat)
  | Attach (t : nat)
  | Detach (t : nat).

Definition attachKey (r : Render) : option nat := videoTrack r.

Definition attachSetup (r : Render) : list Action :=
  if videoElCurrent r then
    match videoTrack r with
    | Some t => [Unmute t; Attach t]
    | None => []
    end
  else [].

Definition attachCleanup (r : Render) : list Action :=
  match videoTrack r with
  | Some t => [Detach t]
  | None => []
  end.

(** The track the video element shows after some actions: [attach] puts the
    track on the element, [detach] takes it off every element. *)
Definition shownStep (shown : option nat) (a : Action) : option nat :=
  match a with
  | Unmute _ => shown
  | Attach t => Some t
  | Detach t => if bool_decide (shown = Some t) then None else shown
  end.

End Surface.

(** [x == ""] for a [string | undefined]. *)
Definition looselyEmpty (x : option string) : bool :=
  match x with
  | Some s => String.eqb s ""
  | None => false
  end.

(** The effect of lines 132-148, which has two moments: when it runs it tests
    the selection and calls [getDeviceId()] on the track; when that promise
    resolves, later, it calls [setSelected] without testing the selection
    again. *)
Module Adoption.

(** When the effect runs: whether [getDeviceId()] is called for a medium. *)
Definition wantsDeviceId (selectedId : option string)
    (track : option VideoPreview.LocalTrack) : bool :=
  (negb (truthy selectedId) || looselyEmpty selectedId)
  && bool_decide (is_Some track).

(** When the promise resolves with [id]: the id [setSelected] is called with,
    if it is called. *)
Definition onDeviceId (id : option string) : option string :=
  if truthy id then id else None.

Inductive Step : Type :=
  | EffectRuns (i : VideoPreview.Inputs)
  | DeviceIdResolves (k : VideoPreview.TrackKind) (id : option string).

(** [videoIn.setSelected(id)] or [audioIn.setSelected(id)]. *)
Inductive Call : Type :=
  | SetSelected (k : VideoPreview.TrackKind) (id : string).

(** The promises of [getDeviceId()] not yet resolved. *)
Record Pending : Type := mkPending {
  pendingVideo : nat;
  pendingAudio : nat;
}.

Definition wantsVideo (i : VideoPreview.Inputs) : bool :=
  wantsDeviceId (VideoPreview.videoIn_selectedId i)
    (VideoPreview.trackOfKind VideoPreview.isVideo (VideoPreview.tracks i)).

Definition wantsAudio (i : VideoPreview.Inputs) : bool :=
  wantsDeviceId (VideoPreview.audioIn_selectedId i)
    (VideoPreview.trackOfKind VideoPreview.isAudio (VideoPreview.tracks i)).

Definition setSelectedCalls (k : VideoPreview.TrackKind) (id : option string)
    : list Call :=
  match onDeviceId id with
  | Some x => [SetSelected k x]
  | None => []
  end.

Definition step (p : Pending) (s : Step) : Pending * list Call :=
  match s with
  | EffectRuns i =>
      ({| pendingVideo := pendingVideo p + (if wantsVideo i then 1 else 0);
          pendingAudio := pendingAudio p + (if wantsAudio i then 1 else 0) |},
       [])
  | DeviceIdResolves VideoPreview.Video id =>
      match pendingVideo p with
      | 0 => (p, [])
      | S n => ({| pendingVideo := n; pendingAudio := pendingAudio p |},
                setSelectedCalls VideoPreview.Video id)
      end
  | DeviceIdResolves VideoPreview.Audio id =>
      match pendingAudio p with
      | 0 => (p, [])
      | S n => ({| pendingVideo := pendingVideo p; pendingAudio := n |},
                setSelectedCalls VideoPreview.Audio id)
      end
  end.

Fixpoint run (p : Pending) (steps : list Step) : Pending * list Call :=
  match steps with
  | [] => (p, [])
  | s :: rest =>
      let (p', done) := step p s in
      let (p'', more) := run p' rest in
      (p'', (done ++ more)%list)
  end.




End Adoption.

(** What the emitter holds for the [HangupCall] effect: nothing, or the one
    listener of the run whose cleanup is pending, which then saw the call
    entered. *)
Definition hangupHeld (env : Env) (ran : option Lifecycle.Render)
    (ls : list Lifecycle.Held) : Prop :=
  ls = []
  \/ exists r0,
       ran = Some r0
       /\ widget env && is_Entered (Lifecycle.state r0) = true
       /\ ls = [Lifecycle.mkHeld HangupCall
                  (Lifecycle.OnHangup (Lifecycle.leave r0)) true].

(** * Properties *)

(** ** View selection *)

(** C1. For every input state the render body returns the view of the first
    matching rule of the decision table, in the order: no service URL, error,
    entered with choices, left, preload, embedded, lobby.  In particular a
    state with an error, [Entered] and choices present gives the error view,
    whatever the other inputs are. *)
Theorem render_is_first_match (s : GroupCallView.SessionViewState)
    (url : option string) (e : string) (c : UserChoices)
    (l p emb pw an : bool) :
  GroupCallView.firstMatch GroupCallView.decisionTable s
    = Some (GroupCallView.tag (GroupCallView.render s))
  /\ GroupCallView.tag
       (GroupCallView.render
          (GroupCallView.mkState url (Some e) Entered (Some c) l p emb pw an))
     = GroupCallView.TError.
Proof.
  split.
  - destruct s as [u er st uc lf pr ie ip ae].
    unfold GroupCallView.render; simpl.
    destruct (truthy u); simpl; [| reflexivity].
    destruct er as [m |]; simpl; [reflexivity |].
    destruct st, uc as [ch |]; simpl;
      destruct lf, pr, ie, ip, ae; reflexivity.
  - unfold GroupCallView.render; simpl.
    destruct (truthy url); reflexivity.
Qed.

(** Without a service URL from the focus or from the configuration the
    component shows the configuration error, whatever else holds. *)
Lemma render_without_service_url (s : GroupCallView.SessionViewState) :
  GroupCallView.livekitServiceURL s = GroupCallView.resolveServiceURL None None ->
  GroupCallView.render s
  = GroupCallView.ErrorView "No livekit_service_url defined".
Proof. unfold GroupCallView.render. intros ->. reflexivity. Qed.

(** ** The trace of [onJoin] *)

Section JoinTrace.
Variables (env : Env) (ev : Request) (t0 : N).

Let t1 : N := (t0 + latency env GetLocalDevices)%N.
Let t2 : N := (t1 + latency env Enter)%N.
Let both : list Call := [SetAlwaysOnScreen true; TransportReply (requestId ev)].
Let t3 : N := (t2 + settleDelay env both)%N.

(** The whole trace of the handler, by the outcome of the two promises it
    depends on. *)
Lemma onJoin_trace :
  run t0 (onJoin env ev) =
    (t0, Invoked GetLocalDevices) ::
    if settles env GetLocalDevices then
      (t1, Resolved GetLocalDevices) ::
      stamp t1 (lookupEvents env "audio" audioinput (audioInput (data ev))
                  (localDevices env)
                ++ lookupEvents env "video" videoinput (videoInput (data ev))
                     (localDevices env)
                ++ [Invoked (SetUserChoices (joinChoices env ev));
                    Invoked Enter])
      ++ (if settles env Enter then
            (t2, Resolved Enter) ::
            stamp t2 [Invoked CacheStartCall;
                      Invoked (CallStartedTrack (groupCallId env));
                      Invoked (SetAlwaysOnScreen true);
                      Invoked (TransportReply (requestId ev))]
            ++ [(t3, if forallb (settles env) both
                     then AllResolved both else SomeRejected both)]
          else [(t2, Rejected Enter)])
    else [(t1, Rejected GetLocalDevices)].
Proof.
  unfold run, onJoin, joinChoices, lookupEvents, lookupChoice, bind, await,
    awaitAll, invoke, ret, stamp.
  subst t1 t2 t3 both.
  destruct (settles env GetLocalDevices); simpl; [| reflexivity].
  destruct (not_strictly_null (audioInput (data ev))); simpl;
    [destruct (truthy (findDeviceByName env (audioInput (data ev)) audioinput
                         (localDevices env))); simpl |];
    (destruct (not_strictly_null (videoInput (data ev))); simpl;
     [destruct (truthy (findDeviceByName env (videoInput (data ev)) videoinput
                          (localDevices env))); simpl |]);
    destruct (settles env Enter); simpl; try reflexivity;
    destruct (settles env (SetAlwaysOnScreen true)); simpl;
    destruct (settles env (TransportReply (requestId ev))); reflexivity.
Qed.
End JoinTrace.

Lemma onlyAfter_sound (p q : Event -> bool) (l : list Event) (seen : bool) :
  onlyAfter p q seen l = true ->
  forall i e, l !! i = Some e -> p e = true ->
    seen = true \/ exists j e', j < i /\ l !! j = Some e' /\ q e' = true.
Proof.
  revert seen.
  induction l as [| x l IH]; intros seen Hc i e Hi Hp; [discriminate |].
  simpl in Hc. apply andb_prop in Hc as [Hx Hrest].
  destruct i as [| i]; simpl in Hi.
  - injection Hi as ->. rewrite Hp in Hx. simpl in Hx. now left.
  - destruct (IH _ Hrest i e Hi Hp) as [Hs | (j & e' & Hj & He' & Hq)].
    + apply orb_prop in Hs as [Hs | Hs]; [now left |].
      right. exists 0, x. repeat split; [lia | assumption].
    + right. exists (S j), e'. repeat split; [lia | assumption | assumption].
Qed.

(** ** The widget [JoinCall] handler *)

(** C2. The handler registered for [JoinCall] in preload mode makes the reply
    only after [enter()] was invoked and its promise resolved.  When the
    device list and [enter()] resolve, the handler resumes, records the start
    of the call, tracks "call started", and then makes the always-on-screen
    call and the reply at the same instant, before it waits for either. *)
Theorem join_reply_after_enter (env : Env) (preload : bool)
    (handler : Request -> Async unit) (ev : Request) (t0 : N) :
  joinListener env preload = Some handler ->
  (forall i e, events (run t0 (handler ev)) !! i = Some e -> isReply e = true ->
     exists j k, j < k /\ k < i
       /\ events (run t0 (handler ev)) !! j = Some (Invoked Enter)
       /\ events (run t0 (handler ev)) !! k = Some (Resolved Enter))
  /\ (settles env GetLocalDevices = true -> settles env Enter = true ->
      exists (resumed settled : N) (outcome : Event),
        (resumed <= settled)%N
        /\ (outcome = AllResolved [SetAlwaysOnScreen true;
                                   TransportReply (requestId ev)]
            \/ outcome = SomeRejected [SetAlwaysOnScreen true;
                                       TransportReply (requestId ev)])
        /\ (stamp resumed [Resolved Enter;
                           Invoked CacheStartCall;
                           Invoked (CallStartedTrack (groupCallId env));
                           Invoked (SetAlwaysOnScreen true);
                           Invoked (TransportReply (requestId ev))]
            ++ [(settled, outcome)])%list
           `suffix_of` run t0 (handler ev)).
Proof.
  intros Hreg. unfold joinListener in Hreg.
  destruct (widget env && preload); [| discriminate].
  injection Hreg as <-. split.
  - intros i e Hi Hp.
    assert (Hres : onlyAfter isReply isEnterResolved false
                     (events (run t0 (onJoin env ev))) = true)
      by (rewrite onJoin_trace; join_cases env ev; reflexivity).
    assert (Hinv : onlyAfter isEnterResolved isEnterInvoked false
                     (events (run t0 (onJoin env ev))) = true)
      by (rewrite onJoin_trace; join_cases env ev; reflexivity).
    destruct (onlyAfter_sound _ _ _ _ Hres i e Hi Hp)
      as [? | (k & ek & Hk & Hek & Hq)]; [discriminate |].
    destruct (onlyAfter_sound _ _ _ _ Hinv k ek Hek Hq)
      as [? | (j & ej & Hj & Hej & Hq')]; [discriminate |].
    exists j, k.
    destruct ek as [[] | [] | | |]; try discriminate.
    destruct ej as [[] | | | |]; try discriminate.
    auto.
  - intros Hdev Henter.
    exists (t0 + latency env GetLocalDevices + latency env Enter)%N,
      (t0 + latency env GetLocalDevices + latency env Enter
       + settleDelay env [SetAlwaysOnScreen true;
                          TransportReply (requestId ev)])%N,
      (if forallb (settles env) [SetAlwaysOnScreen true;
                                 TransportReply (requestId ev)]
       then AllResolved [SetAlwaysOnScreen true; TransportReply (requestId ev)]
       else SomeRejected [SetAlwaysOnScreen true;
                          TransportReply (requestId ev)]).
    split; [lia |]. split.
    + destruct (forallb _ _); auto.
    + rewrite onJoin_trace, Hdev, Henter. unfold stamp. simpl map.
      apply suffix_cons_r, suffix_cons_r.
      rewrite app_assoc.
      apply suffix_app_r. reflexivity.
Qed.

Lemma join_reply_after_enter_witness :
  (exists j k, j < k /\ k < 10
     /\ events (run 0 (onJoin exampleEnv exampleJoin)) !! j = Some (Invoked Enter)
     /\ events (run 0 (onJoin exampleEnv exampleJoin)) !! k = Some (Resolved Enter))
  /\ (exists (resumed settled : N) (outcome : Event),
        (resumed <= settled)%N
        /\ (outcome = AllResolved [SetAlwaysOnScreen true;
                                   TransportReply "request-1"]
            \/ outcome = SomeRejected [SetAlwaysOnScreen true;
                                       TransportReply "request-1"])
        /\ (stamp resumed [Resolved Enter;
                           Invoked CacheStartCall;
                           Invoked (CallStartedTrack "call-1");
                           Invoked (SetAlwaysOnScreen true);
                           Invoked (TransportReply "request-1")]
            ++ [(settled, outcome)])%list
           `suffix_of` run 0 (onJoin exampleEnv exampleJoin)).
Proof.
  destruct (join_reply_after_enter exampleEnv true (onJoin exampleEnv)
              exampleJoin 0%N eq_refl) as [Hreply Hresume].
  split.
  - apply (Hreply 10 (Invoked (TransportReply "request-1"))); reflexivity.
  - apply Hresume; reflexivity.
Defined.

(** ** "Call started" and "call ended" telemetry *)

(** The trace of the leave callback. *)
Lemma onLeave_trace (env : Env) (isPasswordlessUser isEmbedded : bool) (t0 : N) :
  run t0 (onLeave env isPasswordlessUser isEmbedded) =
    (stamp t0 [Invoked (SetLeft true);
               Invoked (CallEndedTrack (groupCallId env)
                          (participantCount (participants env)) (widget env));
               Invoked Leave]
     ++ (if widget env then
           (t0, Invoked (SetTimeout 10)) ::
           stamp (t0 + (10 + latency env (SetTimeout 10)))
             [Resolved (SetTimeout 10);
              Invoked (SetAlwaysOnScreen false);
              Invoked PosthogLogout;
              Invoked (TransportSend HangupCall)]
         else [])
     ++ (if negb isPasswordlessUser && negb isEmbedded
            && negb (posthogEnabled env)
         then [(if widget env
                then t0 + (10 + latency env (SetTimeout 10)) else t0,
                Invoked (HistoryPush "/"))]
         else []))%list%N.
Proof.
  unfold run, onLeave, when, bind, sleep, invoke, ret, stamp.
  destruct (widget env), isPasswordlessUser, isEmbedded, (posthogEnabled env);
    reflexivity.
Qed.

(** The participant count is the sum of the sizes of the device maps. *)
Lemma participantCount_empty : participantCount ∅ = 0.
Proof. reflexivity. Qed.

(** X14. The participant count is additive over members: a member who is
    not yet in the map adds the size of their device map. *)
Lemma participantCount_insert (ps : gmap string (gmap string unit))
    (member : string) (deviceMap : gmap string unit) :
  ps !! member = None ->
  participantCount (<[member := deviceMap]> ps)
    = participantCount ps + size deviceMap.
Proof.
  intros Hfresh. unfold participantCount.
  rewrite map_fold_insert_L; [reflexivity | | assumption].
  intros; lia.
Qed.

(** C3. The three places that call [enter()] do not track "call started" the
    same way.  The lobby's [onEnter] calls [enter()] once and tracks nothing.
    The embedded effect tracks right after calling [enter()], without waiting
    for it, whether its promise resolves or not.  Only the widget handler
    tracks once for each resolved [enter()], and after it. *)
Theorem call_started_per_enter_path (env : Env) (choices : UserChoices)
    (ev : Request) (t0 : N) :
  (count isEnterInvoked (run t0 (onEnter choices)) = 1
   /\ count isCallStarted (run t0 (onEnter choices)) = 0)
  /\ events (run t0 (enterEmbedded env true false))
     = [Invoked Enter; Invoked CacheStartCall;
        Invoked (CallStartedTrack (groupCallId env))]
  /\ (count isCallStarted (run t0 (onJoin env ev))
      = count isEnterResolved (run t0 (onJoin env ev))
      /\ onlyAfter isCallStarted isEnterResolved false
           (events (run t0 (onJoin env ev))) = true).
Proof.
  split; [split; reflexivity |].
  split; [reflexivity |].
  split; unfold count; rewrite onJoin_trace; join_cases env ev; reflexivity.
Qed.

(** C4. The host's [HangupCall] calls [leave()] once and tracks no
    "call ended"; the user's leave tracks exactly one, with the participant
    count and the send-instantly flag set when there is a widget, and calls
    [leave()] once. *)
Theorem call_ended_per_leave_path (env : Env) (ev : Request)
    (isPasswordlessUser isEmbedded : bool) (t0 : N) :
  (count isLeaveInvoked (run t0 (onHangup env ev)) = 1
   /\ count isCallEnded (run t0 (onHangup env ev)) = 0)
  /\ (count isLeaveInvoked (run t0 (onLeave env isPasswordlessUser isEmbedded)) = 1
      /\ filter (fun e => isCallEnded e = true)
           (events (run t0 (onLeave env isPasswordlessUser isEmbedded)))
         = [Invoked (CallEndedTrack (groupCallId env)
                       (participantCount (participants env)) (widget env))]).
Proof.
  split.
  - unfold count, run, onHangup, bind, await, invoke.
    destruct (settles env (TransportReply (requestId ev))); split; reflexivity.
  - rewrite onLeave_trace. unfold count, events, stamp.
    destruct (widget env), isPasswordlessUser, isEmbedded, (posthogEnabled env);
      split; reflexivity.
Qed.

(** C5. In the leave callback the [HangupCall] notification is never sent
    less than 10 ms after "call ended" was tracked; with a widget it is sent,
    the timer is started after the tracking call and the notification is sent
    after the timer fired. *)
Theorem hangup_after_settle_delay (env : Env)
    (isPasswordlessUser isEmbedded : bool) (t0 : N) :
  (forall sent,
     timeOf isHangupSent (run t0 (onLeave env isPasswordlessUser isEmbedded))
       = Some sent ->
     exists tracked,
       timeOf isCallEnded (run t0 (onLeave env isPasswordlessUser isEmbedded))
         = Some tracked
       /\ (tracked + 10 <= sent)%N)
  /\ (widget env = true ->
      count isHangupSent (run t0 (onLeave env isPasswordlessUser isEmbedded)) = 1
      /\ precedes (Invoked (CallEndedTrack (groupCallId env)
                              (participantCount (participants env)) true))
                  (Invoked (SetTimeout 10))
                  (run t0 (onLeave env isPasswordlessUser isEmbedded))
      /\ precedes (Resolved (SetTimeout 10))
                  (Invoked (TransportSend HangupCall))
                  (run t0 (onLeave env isPasswordlessUser isEmbedded))).
Proof.
  rewrite onLeave_trace. unfold timeOf, count, precedes, events, stamp.
  split.
  - intros sent.
    destruct (widget env), isPasswordlessUser, isEmbedded, (posthogEnabled env);
      simpl; intros Hs; try discriminate;
      injection Hs as <-; exists t0; (split; [reflexivity | lia]).
  - intros ->. split; [| split].
    + destruct isPasswordlessUser, isEmbedded, (posthogEnabled env); reflexivity.
    + exists 1, 3. split; [lia |].
      destruct isPasswordlessUser, isEmbedded, (posthogEnabled env);
        split; reflexivity.
    + exists 4, 7. split; [lia |].
      destruct isPasswordlessUser, isEmbedded, (posthogEnabled env);
        split; reflexivity.
Qed.

Lemma hangup_after_settle_delay_witness :
  (exists tracked,
     timeOf isCallEnded (run 100 (onLeave exampleEnv false true)) = Some tracked
     /\ (tracked + 10 <= 113)%N)
  /\ count isHangupSent (run 100 (onLeave exampleEnv false true)) = 1.
Proof.
  destruct (hangup_after_settle_delay exampleEnv false true 100%N)
    as [Hdelay Hsent].
  split.
  - apply Hdelay. reflexivity.
  - apply Hsent. reflexivity.
Defined.

(** ** VideoPreview: frozen default devices *)

Lemma runFrom_cons (h : VideoPreview.Hooks) (s : VideoPreview.Step)
    (rest : list VideoPreview.Step) :
  VideoPreview.runFrom h (s :: rest)
  = (fst (VideoPreview.runFrom (fst (VideoPreview.step h s)) rest),
     match snd (VideoPreview.step h s) with
     | Some r => r :: snd (VideoPreview.runFrom (fst (VideoPreview.step h s)) rest)
     | None => snd (VideoPreview.runFrom (fst (VideoPreview.step h s)) rest)
     end).
Proof.
  simpl. destruct (VideoPreview.step h s) as [h' r]. simpl.
  destruct (VideoPreview.runFrom h' rest) as [h'' rs]. reflexivity.
Qed.

(** Once the ref cell is filled, no step changes it, and every render passes
    the ids it holds. *)
Lemma ref_cell_kept (steps : list VideoPreview.Step) :
  forall (h : VideoPreview.Hooks) (d : VideoPreview.DefaultDevices),
    VideoPreview.initialDefaultDevices h = Some d ->
    VideoPreview.initialDefaultDevices (fst (VideoPreview.runFrom h steps)) = Some d
    /\ Forall (fun r => VideoPreview.previewOptions r = frozenOptions d)
         (snd (VideoPreview.runFrom h steps)).
Proof.
  induction steps as [| s rest IH]; intros h d Hcell.
  - split; [exact Hcell | constructor].
  - rewrite runFrom_cons.
    destruct s as [i | |]; simpl.
    + destruct (IH (fst (VideoPreview.render h i)) d) as [Hkept Hall].
      { simpl. rewrite Hcell. reflexivity. }
      split; [exact Hkept |].
      constructor; [| exact Hall].
      simpl. rewrite Hcell. reflexivity.
    + apply IH. exact Hcell.
    + apply IH. exact Hcell.
Qed.

(** C6. The device ids passed to [usePreviewTracks] are those of the default
    devices at the first render: after any further renders, with any default
    devices, and any button presses, the ref cell still holds the first value
    and every render passed its ids. *)
Theorem preview_devices_frozen (first : VideoPreview.Inputs)
    (steps : list VideoPreview.Step) :
  VideoPreview.initialDefaultDevices
    (fst (VideoPreview.runFrom VideoPreview.mount
            (VideoPreview.Render first :: steps)))
  = Some (VideoPreview.defaultDevices first)
  /\ Forall (fun r => VideoPreview.previewOptions r
                      = frozenOptions (VideoPreview.defaultDevices first))
       (snd (VideoPreview.runFrom VideoPreview.mount
               (VideoPreview.Render first :: steps))).
Proof.
  rewrite runFrom_cons. simpl.
  destruct (ref_cell_kept steps
              (fst (VideoPreview.render VideoPreview.mount first))
              (VideoPreview.defaultDevices first) eq_refl) as [Hkept Hall].
  split; [exact Hkept |].
  constructor; [reflexivity | exact Hall].
Qed.

(** ** VideoPreview: permission requests *)

(** C7. A render lets the switcher request permissions exactly when a video
    track exists; over any run the switcher makes one request for each render
    at which a video track exists, so none as long as no video track has
    appeared. *)
Theorem no_permission_request_before_video_track (h : VideoPreview.Hooks)
    (steps : list VideoPreview.Step) :
  (forall i,
     VideoPreview.requestPermissions (snd (VideoPreview.render h i)) = true
     <-> is_Some (VideoPreview.trackOfKind VideoPreview.isVideo
                    (VideoPreview.tracks i)))
  /\ VideoPreview.permissionRequests (snd (VideoPreview.runFrom h steps))
     = length (filter (fun s => VideoPreview.hasVideoTrack s = true) steps)
  /\ (Forall (fun s => VideoPreview.hasVideoTrack s = false) steps ->
      VideoPreview.permissionRequests (snd (VideoPreview.runFrom h steps)) = 0).
Proof.
  assert (Hcount : forall steps h,
    VideoPreview.permissionRequests (snd (VideoPreview.runFrom h steps))
    = length (filter (fun s => VideoPreview.hasVideoTrack s = true) steps)).
  { clear. induction steps as [| s rest IH]; intros h; [reflexivity |].
    rewrite runFrom_cons. destruct s as [i | |]; simpl.
    - rewrite IH, filter_cons. simpl.
      destruct (bool_decide (is_Some _)); reflexivity.
    - rewrite IH, filter_cons. reflexivity.
    - rewrite IH, filter_cons. reflexivity. }
  split; [| split].
  - intros i. simpl. apply bool_decide_eq_true.
  - apply Hcount.
  - intros Hnone. rewrite Hcount.
    induction Hnone as [| s rest Hs _ IH]; [reflexivity |].
    rewrite filter_cons, Hs. exact IH.
Qed.

Lemma no_permission_request_before_video_track_witness :
  VideoPreview.permissionRequests
    (snd (VideoPreview.runFrom VideoPreview.mount audioOnlyRun)) = 0.
Proof.
  destruct (no_permission_request_before_video_track VideoPreview.mount
              audioOnlyRun) as (_ & _ & Hzero).
  apply Hzero. repeat constructor.
Defined.

(** ** VideoPreview: emission of [UserChoices] *)

Lemma lastOr_cons {A} (previous : option A) (x : A) (l : list A) :
  lastOr previous (x :: l) = lastOr (Some x) l.
Proof.
  unfold lastOr. destruct l as [| y l]; [reflexivity |].
  change (last (x :: y :: l)) with (last (y :: l)).
  destruct (last (y :: l)) eqn:Hl; [reflexivity |].
  apply last_None in Hl. discriminate.
Qed.

Lemma render_upToDate (h : VideoPreview.Hooks) (i : VideoPreview.Inputs)
    (latest : option UserChoices) :
  upToDate h latest ->
  upToDate (fst (VideoPreview.render h i))
    (match VideoPreview.emitted (snd (VideoPreview.render h i)) with
     | Some c => Some c
     | None => latest
     end).
Proof.
  intros Hinv d Hd. simpl in Hd. injection Hd as <-. simpl.
  unfold VideoPreview.effectRuns.
  destruct (VideoPreview.choicesDeps h) as [d0 |] eqn:Hd0; [| reflexivity].
  destruct (bool_decide _) eqn:Hsame; simpl; [| reflexivity].
  apply bool_decide_eq_true in Hsame. rewrite (Hinv d0 Hd0), Hsame.
  reflexivity.
Qed.

Lemma run_upToDate (steps : list VideoPreview.Step) :
  forall (h : VideoPreview.Hooks) (latest : option UserChoices),
    upToDate h latest ->
    upToDate (fst (VideoPreview.runFrom h steps))
      (lastOr latest
         (VideoPreview.emissions (snd (VideoPreview.runFrom h steps)))).
Proof.
  induction steps as [| s rest IH]; intros h latest Hinv; [exact Hinv |].
  rewrite runFrom_cons. destruct s as [i | |].
  - pose proof (render_upToDate h i latest Hinv) as Hstep.
    apply IH in Hstep. unfold VideoPreview.step.
    destruct (VideoPreview.render h i) as [h' r] eqn:Hr.
    cbn [fst snd] in *. unfold VideoPreview.emissions in *.
    cbn [omap list_omap]. destruct (VideoPreview.emitted r) as [c |].
    + rewrite lastOr_cons. exact Hstep.
    + exact Hstep.
  - apply IH. exact Hinv.
  - apply IH. exact Hinv.
Qed.

(** The dependencies kept after a run that ends with a render are those of
    that render. *)
Lemma deps_after_render (steps : list VideoPreview.Step)
    (i : VideoPreview.Inputs) :
  forall h,
    VideoPreview.choicesDeps
      (fst (VideoPreview.runFrom h (steps ++ [VideoPreview.Render i])))
    = Some {| VideoPreview.dep_onUserChoicesChanged :=
                VideoPreview.onUserChoicesChanged i;
              VideoPreview.dep_videoSelectedId :=
                VideoPreview.videoIn_selectedId i;
              VideoPreview.dep_videoEnabled :=
                VideoPreview.videoEnabled
                  (fst (VideoPreview.runFrom h
                          (steps ++ [VideoPreview.Render i])));
              VideoPreview.dep_audioSelectedId :=
                VideoPreview.audioIn_selectedId i;
              VideoPreview.dep_audioEnabled :=
                VideoPreview.audioEnabled
                  (fst (VideoPreview.runFrom h
                          (steps ++ [VideoPreview.Render i]))) |}.
Proof.
  induction steps as [| s rest IH]; intros h.
  - reflexivity.
  - rewrite <- app_comm_cons, runFrom_cons. cbn [fst]. apply IH.
Qed.

Lemma read_createChoices (flag : bool) (id : option string) :
  read (VideoPreview.createChoices flag id) = expectedEntry flag id
  /\ has_key (VideoPreview.createChoices flag id) = true.
Proof.
  unfold VideoPreview.createChoices, expectedEntry.
  destruct id as [x |]; simpl; [| split; reflexivity].
  destruct (String.eqb x ""); split; reflexivity.
Qed.

(** C8. Whatever a render emits has both keys, and each entry, read from the
    emitted object, is the one asked for from the flag and the selected id of
    its own medium at that same render: none when the id is undefined or
    empty, otherwise that id with that flag.  The first render emits, and so
    does every render at which one of the two ids or one of the two flags
    differs from the previous render.  After a run that ends with a render,
    the latest emission has the entries asked for from the flags and ids at
    that render. *)
Theorem user_choices_emitted_together (h : VideoPreview.Hooks)
    (i : VideoPreview.Inputs) (steps : list VideoPreview.Step) :
  (forall c,
     VideoPreview.emitted (snd (VideoPreview.render h i)) = Some c ->
     has_key (video c) = true /\ has_key (audio c) = true
     /\ read (video c)
        = expectedEntry (VideoPreview.videoEnabled h)
            (VideoPreview.videoIn_selectedId i)
     /\ read (audio c)
        = expectedEntry (VideoPreview.audioEnabled h)
            (VideoPreview.audioIn_selectedId i))
  /\ (VideoPreview.choicesDeps h = None ->
      is_Some (VideoPreview.emitted (snd (VideoPreview.render h i))))
  /\ (forall d,
        VideoPreview.choicesDeps h = Some d ->
        VideoPreview.dep_videoSelectedId d <> VideoPreview.videoIn_selectedId i
        \/ VideoPreview.dep_audioSelectedId d <> VideoPreview.audioIn_selectedId i
        \/ VideoPreview.dep_videoEnabled d <> VideoPreview.videoEnabled h
        \/ VideoPreview.dep_audioEnabled d <> VideoPreview.audioEnabled h ->
        exists c,
          VideoPreview.emitted (snd (VideoPreview.render h i)) = Some c
          /\ read (video c)
             = expectedEntry (VideoPreview.videoEnabled h)
                 (VideoPreview.videoIn_selectedId i)
          /\ read (audio c)
             = expectedEntry (VideoPreview.audioEnabled h)
                 (VideoPreview.audioIn_selectedId i))
  /\ (forall (flag : bool) (id : option string),
        read (VideoPreview.createChoices flag id)
        = if truthy id
          then Some {| selectedId := default "" id; enabled := flag |}
          else None)
  /\ exists c,
       last (VideoPreview.emissions
               (snd (VideoPreview.runFrom VideoPreview.mount
                       (steps ++ [VideoPreview.Render i]))))
       = Some c
       /\ read (video c)
          = expectedEntry
              (VideoPreview.videoEnabled
                 (fst (VideoPreview.runFrom VideoPreview.mount
                         (steps ++ [VideoPreview.Render i]))))
              (VideoPreview.videoIn_selectedId i)
       /\ read (audio c)
          = expectedEntry
              (VideoPreview.audioEnabled
                 (fst (VideoPreview.runFrom VideoPreview.mount
                         (steps ++ [VideoPreview.Render i]))))
              (VideoPreview.audioIn_selectedId i).
Proof.
  split; [| split; [| split; [| split]]].
  - simpl. intros c Hc.
    destruct (VideoPreview.effectRuns _ _); [| discriminate].
    injection Hc as <-. unfold VideoPreview.choicesOf. cbn [audio video].
    repeat split; apply read_createChoices.
  - intros Hfirst. simpl. rewrite Hfirst. simpl. eexists. reflexivity.
  - intros d Hd Hchanged. simpl. rewrite Hd. unfold VideoPreview.effectRuns.
    rewrite bool_decide_eq_false_2.
    + eexists. split; [reflexivity |].
      unfold VideoPreview.choicesOf. cbn [audio video negb].
      split; apply read_createChoices.
    + intros ->. simpl in Hchanged. tauto.
  - intros flag id. unfold VideoPreview.createChoices.
    destruct (truthy id); reflexivity.
  - pose proof (run_upToDate (steps ++ [VideoPreview.Render i])
                  VideoPreview.mount None) as Hinv.
    unfold upToDate in Hinv.
    specialize (Hinv ltac:(intros d Hd; discriminate) _
                  (deps_after_render steps i VideoPreview.mount)).
    unfold lastOr in Hinv.
    destruct (last _) as [c |]; [| discriminate].
    injection Hinv as ->. eexists. split; [reflexivity |].
    unfold choicesOfDeps, VideoPreview.choicesOf. cbn [audio video].
    split; apply read_createChoices.
Qed.

Lemma user_choices_emitted_together_witness :
  exists c,
    VideoPreview.emitted
      (snd (VideoPreview.render
              (VideoPreview.mkHooks true false (Some exampleDefaults)
                 (Some (VideoPreview.mkDeps 0 None true None true)))
              (VideoPreview.mkInputs 0 exampleDefaults
                 (Some [VideoPreview.mkTrack VideoPreview.Audio (Some "mic-1")])
                 None (Some "mic-1"))))
    = Some c
    /\ read (video c) = None
    /\ read (audio c) = Some {| selectedId := "mic-1"; enabled := false |}.
Proof.
  destruct (user_choices_emitted_together
              (VideoPreview.mkHooks true false (Some exampleDefaults)
                 (Some (VideoPreview.mkDeps 0 None true None true)))
              (VideoPreview.mkInputs 0 exampleDefaults
                 (Some [VideoPreview.mkTrack VideoPreview.Audio (Some "mic-1")])
                 None (Some "mic-1"))
              []) as (_ & _ & Hchanged & _ & _).
  eapply Hchanged; [reflexivity |].
  right; left. discriminate.
Defined.

(** ** Device names in the [JoinCall] payload *)

Lemma events_stamp (t : N) (l : list Event) : events (stamp t l) = l.
Proof.
  unfold events, stamp. induction l as [| e l IH]; [reflexivity |].
  simpl. f_equal. exact IH.
Qed.

Lemma events_app (a b : Trace) : events (a ++ b)%list = (events a ++ events b)%list.
Proof. apply map_app. Qed.

(** The events of the handler once the device list is there. *)
Lemma onJoin_events (env : Env) (ev : Request) (t0 : N) :
  settles env GetLocalDevices = true ->
  events (run t0 (onJoin env ev))
  = ([Invoked GetLocalDevices; Resolved GetLocalDevices]
     ++ lookupEvents env "audio" audioinput (audioInput (data ev)) (localDevices env)
     ++ lookupEvents env "video" videoinput (videoInput (data ev)) (localDevices env)
     ++ [Invoked (SetUserChoices (joinChoices env ev)); Invoked Enter]
     ++ (if settles env Enter then
           [Resolved Enter;
            Invoked CacheStartCall;
            Invoked (CallStartedTrack (groupCallId env));
            Invoked (SetAlwaysOnScreen true);
            Invoked (TransportReply (requestId ev));
            if forallb (settles env)
                 [SetAlwaysOnScreen true; TransportReply (requestId ev)]
            then AllResolved [SetAlwaysOnScreen true;
                              TransportReply (requestId ev)]
            else SomeRejected [SetAlwaysOnScreen true;
                               TransportReply (requestId ev)]]
         else [Rejected Enter]))%list.
Proof.
  intros Hdev. rewrite onJoin_trace, Hdev.
  change (events (?x :: ?y :: ?l)) with (snd x :: snd y :: events l).
  rewrite events_app, events_stamp. cbn [snd app].
  rewrite <- !app_assoc. do 4 f_equal.
  destruct (settles env Enter); [| reflexivity].
  change (events (?x :: ?l)) with (snd x :: events l).
  rewrite events_app, events_stamp. reflexivity.
Qed.

Lemma findDeviceByNameModel_unknown (n : string) (k : MediaDeviceKind)
    (devices : list MediaDeviceInfo) :
  Forall (fun d => label d <> n) devices ->
  findDeviceByNameModel (JsStr n) k devices = None.
Proof.
  intros Hnone. unfold findDeviceByNameModel.
  induction Hnone as [| d rest Hd _ IH]; [reflexivity |].
  simpl. apply String.eqb_neq in Hd. rewrite Hd, andb_false_r. exact IH.
Qed.

Lemma findDeviceByNameModel_first (n id : string) (k : MediaDeviceKind)
    (before after : list MediaDeviceInfo) :
  Forall (fun d => label d <> n) before ->
  findDeviceByNameModel (JsStr n) k (before ++ mkDevice id k n :: after) = Some id.
Proof.
  intros Hnone. unfold findDeviceByNameModel.
  induction Hnone as [| d rest Hd _ IH].
  - simpl. rewrite String.eqb_refl. destruct k; reflexivity.
  - simpl. apply String.eqb_neq in Hd. rewrite Hd, andb_false_r. exact IH.
Qed.

(** The stored choices are the ones looked up. *)
Lemma onJoin_storedChoices (env : Env) (ev : Request) (t0 : N) :
  settles env GetLocalDevices = true ->
  storedChoices (run t0 (onJoin env ev)) = Some (joinChoices env ev).
Proof.
  intros Hdev. unfold storedChoices. rewrite onJoin_events by exact Hdev.
  unfold lookupEvents.
  destruct (not_strictly_null (audioInput (data ev)));
    destruct (truthy (findDeviceByName env (audioInput (data ev)) audioinput
                        (localDevices env)));
    destruct (not_strictly_null (videoInput (data ev)));
    destruct (truthy (findDeviceByName env (videoInput (data ev)) videoinput
                        (localDevices env)));
    reflexivity.
Qed.

(** C9. Once the device list is there: a name for which the lookup finds no
    device id is reported with a warning and leaves no entry for its medium
    in the stored choices; [enter()] is called all the same, and the reply is
    made when [enter()] resolves.  When the lookup resolves "Built-in Mic" to
    "mic-1", the payload [{audioInput: "Built-in Mic", videoInput: null}]
    stores [{audio: {selectedId: "mic-1", enabled: true}}], without a video
    key. *)
Theorem unknown_device_name_omitted (env : Env) (ev : Request) (t0 : N) :
  settles env GetLocalDevices = true ->
  (not_strictly_null (audioInput (data ev)) = true ->
   truthy (findDeviceByName env (audioInput (data ev)) audioinput
             (localDevices env)) = false ->
   In (Invoked (LoggerWarn ("Unknown audio input: "
                            ++ js_to_string (audioInput (data ev)))))
      (events (run t0 (onJoin env ev)))
   /\ exists c, storedChoices (run t0 (onJoin env ev)) = Some c
                /\ audio c = Missing)
  /\ (not_strictly_null (videoInput (data ev)) = true ->
      truthy (findDeviceByName env (videoInput (data ev)) videoinput
                (localDevices env)) = false ->
      In (Invoked (LoggerWarn ("Unknown video input: "
                               ++ js_to_string (videoInput (data ev)))))
         (events (run t0 (onJoin env ev)))
      /\ exists c, storedChoices (run t0 (onJoin env ev)) = Some c
                   /\ video c = Missing)
  /\ In (Invoked Enter) (events (run t0 (onJoin env ev)))
  /\ (settles env Enter = true ->
      In (Invoked (TransportReply (requestId ev)))
         (events (run t0 (onJoin env ev))))
  /\ (data ev = mkJoinCallData (JsStr "Built-in Mic") JsNull ->
      findDeviceByName env (JsStr "Built-in Mic") audioinput (localDevices env)
      = Some "mic-1" ->
      storedChoices (run t0 (onJoin env ev))
      = Some {| audio := Holds {| selectedId := "mic-1"; enabled := true |};
                video := Missing |}).
Proof.
  intros Hdev.
  rewrite (onJoin_storedChoices env ev t0 Hdev), (onJoin_events env ev t0 Hdev).
  split; [| split; [| split; [| split]]].
  - intros Hset Hnone. split.
    + unfold lookupEvents at 1. rewrite Hset, Hnone. in_list.
    + eexists; split; [reflexivity |].
      unfold joinChoices, lookupChoice; simpl.
      rewrite Hset, Hnone. reflexivity.
  - intros Hset Hnone. split.
    + unfold lookupEvents at 2. rewrite Hset, Hnone. in_list.
    + eexists; split; [reflexivity |].
      unfold joinChoices, lookupChoice; simpl.
      rewrite Hset, Hnone. reflexivity.
  - in_list.
  - intros ->. in_list.
  - intros Hdata Hmic.
    unfold joinChoices, lookupChoice. rewrite Hdata.
    cbn [audioInput videoInput not_strictly_null andb].
    rewrite Hmic. reflexivity.
Qed.

Lemma unknown_device_name_omitted_witness :
  (In (Invoked (LoggerWarn "Unknown audio input: USB Mic"))
      (events (run 0 (onJoin exampleEnv unknownJoin)))
   /\ exists c, storedChoices (run 0 (onJoin exampleEnv unknownJoin)) = Some c
                /\ audio c = Missing)
  /\ In (Invoked (TransportReply "request-2"))
        (events (run 0 (onJoin exampleEnv unknownJoin)))
  /\ storedChoices (run 0 (onJoin exampleEnv exampleJoin))
     = Some {| audio := Holds {| selectedId := "mic-1"; enabled := true |};
               video := Missing |}.
Proof.
  destruct (unknown_device_name_omitted exampleEnv unknownJoin 0%N eq_refl)
    as (Haudio & _ & _ & Hreply & _).
  destruct (unknown_device_name_omitted exampleEnv exampleJoin 0%N eq_refl)
    as (_ & _ & _ & _ & Hmic).
  split; [| split].
  - apply Haudio; reflexivity.
  - apply Hreply. reflexivity.
  - apply Hmic; reflexivity.
Defined.

(** With the lookup modelled from the spec, scenario B holds for every device
    list in which the microphone is the first device of its name. *)
Lemma scenario_B_stored_choices (env : Env) (ev : Request) (t0 : N)
    (before after : list MediaDeviceInfo) :
  settles env GetLocalDevices = true ->
  findDeviceByName env = findDeviceByNameModel ->
  localDevices env
  = (before ++ mkDevice "mic-1" audioinput "Built-in Mic" :: after)%list ->
  Forall (fun d => label d <> "Built-in Mic") before ->
  data ev = mkJoinCallData (JsStr "Built-in Mic") JsNull ->
  storedChoices (run t0 (onJoin env ev))
  = Some {| audio := Holds {| selectedId := "mic-1"; enabled := true |};
            video := Missing |}.
Proof.
  intros Hdev Hmodel Hlist Hfirst Hdata.
  rewrite (onJoin_storedChoices env ev t0 Hdev).
  unfold joinChoices, lookupChoice. rewrite Hdata, Hmodel, Hlist.
  cbn [audioInput videoInput not_strictly_null andb].
  rewrite (findDeviceByNameModel_first "Built-in Mic" "mic-1" audioinput
             before after Hfirst).
  reflexivity.
Qed.

(** C10. Once the device list is there, the lookup for a medium is skipped
    exactly when its input is [null].  An input that is [undefined] is looked
    up and, the lookup finding nothing for it, is reported as "undefined" and
    leaves no entry; an input that is [null] is passed over without lookup or
    warning and leaves no entry either. *)
Theorem undefined_input_not_skipped (env : Env) (ev : Request) (t0 : N) :
  settles env GetLocalDevices = true ->
  ((count (isLookup audioinput) (run t0 (onJoin env ev)) = 0
    <-> audioInput (data ev) = JsNull)
   /\ (count (isLookup videoinput) (run t0 (onJoin env ev)) = 0
       <-> videoInput (data ev) = JsNull))
  /\ (audioInput (data ev) = JsUndefined ->
      In (Invoked (FindDeviceByName JsUndefined audioinput))
         (events (run t0 (onJoin env ev)))
      /\ (truthy (findDeviceByName env JsUndefined audioinput
                    (localDevices env)) = false ->
          In (Invoked (LoggerWarn "Unknown audio input: undefined"))
             (events (run t0 (onJoin env ev)))
          /\ exists c, storedChoices (run t0 (onJoin env ev)) = Some c
                       /\ audio c = Missing))
  /\ (videoInput (data ev) = JsUndefined ->
      In (Invoked (FindDeviceByName JsUndefined videoinput))
         (events (run t0 (onJoin env ev)))
      /\ (truthy (findDeviceByName env JsUndefined videoinput
                    (localDevices env)) = false ->
          In (Invoked (LoggerWarn "Unknown video input: undefined"))
             (events (run t0 (onJoin env ev)))
          /\ exists c, storedChoices (run t0 (onJoin env ev)) = Some c
                       /\ video c = Missing))
  /\ (audioInput (data ev) = JsNull ->
      count (isWarnFor "audio") (run t0 (onJoin env ev)) = 0
      /\ exists c, storedChoices (run t0 (onJoin env ev)) = Some c
                   /\ audio c = Missing)
  /\ (videoInput (data ev) = JsNull ->
      count (isWarnFor "video") (run t0 (onJoin env ev)) = 0
      /\ exists c, storedChoices (run t0 (onJoin env ev)) = Some c
                   /\ video c = Missing).
Proof.
  intros Hdev. unfold count.
  rewrite (onJoin_storedChoices env ev t0 Hdev), (onJoin_events env ev t0 Hdev).
  destruct ev as [rid [a v]]; cbn [data audioInput videoInput requestId].
  unfold joinChoices, lookupChoice, lookupEvents;
    cbn [data audioInput videoInput requestId audio video].
  split; [| split; [| split; [| split]]].
  - split; split.
    + intros H. destruct a; [reflexivity | exfalso | exfalso];
        revert H; destruct v; decide_ifs env; discriminate.
    + intros ->. destruct v; decide_ifs env; reflexivity.
    + intros H. destruct v; [reflexivity | exfalso | exfalso];
        revert H; destruct a; decide_ifs env; discriminate.
    + intros ->. destruct a; decide_ifs env; reflexivity.
  - intros ->. cbn [not_strictly_null js_to_string]. split; [in_list |].
    intros ->. split; [in_list |].
    eexists; split; reflexivity.
  - intros ->. cbn [not_strictly_null js_to_string]. split; [in_list |].
    intros ->. split; [in_list |].
    eexists; split; reflexivity.
  - intros ->. split; [| eexists; split; reflexivity].
    destruct v; decide_ifs env; reflexivity.
  - intros ->. split; [| eexists; split; reflexivity].
    destruct a; decide_ifs env; reflexivity.
Qed.

Lemma undefined_input_not_skipped_witness :
  (In (Invoked (FindDeviceByName JsUndefined audioinput))
      (events (run 0 (onJoin exampleEnv undefinedJoin)))
   /\ In (Invoked (LoggerWarn "Unknown audio input: undefined"))
         (events (run 0 (onJoin exampleEnv undefinedJoin)))
   /\ exists c, storedChoices (run 0 (onJoin exampleEnv undefinedJoin)) = Some c
                /\ audio c = Missing)
  /\ count (isWarnFor "video") (run 0 (onJoin exampleEnv undefinedJoin)) = 0
  /\ count (isLookup videoinput) (run 0 (onJoin exampleEnv undefinedJoin)) = 0.
Proof.
  destruct (undefined_input_not_skipped exampleEnv undefinedJoin 0%N eq_refl)
    as ((_ & Hvideo) & Hundefined & _ & _ & Hnull).
  destruct (Hundefined eq_refl) as [Hlookup Hwarn].
  split; [| split].
  - split; [exact Hlookup | apply Hwarn; reflexivity].
  - apply Hnull. reflexivity.
  - apply Hvideo. reflexivity.
Defined.

(** * Further properties *)

(** ** The view after a handler ran *)

(** X1. Once [left] is set the component shows neither the lobby nor the
    loading placeholder, whatever the other inputs are. *)
Theorem left_never_shows_lobby (url err : option string) (st : GroupCallState)
    (uc : option UserChoices) (p emb pw an : bool) :
  GroupCallView.tag
    (GroupCallView.render (GroupCallView.mkState url err st uc true p emb pw an))
  <> GroupCallView.TLobby
  /\ GroupCallView.tag
       (GroupCallView.render
          (GroupCallView.mkState url err st uc true p emb pw an))
     <> GroupCallView.TLoading.
Proof.
  unfold GroupCallView.render; simpl.
  destruct (truthy url), err, st, uc, emb, pw, an; simpl; split; discriminate.
Qed.

(** X2. The active call is shown exactly when there is a service URL, no
    error, the call is entered and choices are stored; it is given that URL
    and those choices. *)
Theorem active_call_inversion (s : GroupCallView.SessionViewState)
    (u : string) (c : UserChoices) :
  GroupCallView.render s = GroupCallView.ActiveCall u c
  <-> (GroupCallView.livekitServiceURL s = Some u /\ u <> ""
       /\ GroupCallView.error s = None
       /\ GroupCallView.state s = Entered
       /\ GroupCallView.userChoices s = Some c).
Proof.
  destruct s as [url er st uc lf pr ie ip ae].
  unfold GroupCallView.render; simpl. split.
  - destruct url as [x |]; simpl; [| discriminate].
    destruct (String.eqb_spec x ""); simpl; [discriminate |].
    destruct er; [discriminate |].
    destruct st, uc; simpl; try (destruct lf, pr, ie, ip, ae; discriminate).
    intros H. injection H as -> ->. auto.
  - intros (-> & Hu & -> & -> & ->). simpl.
    apply String.eqb_neq in Hu. rewrite Hu. reflexivity.
Qed.

(** X3. The service URL of the focus wins over the configured one, also when
    it is the empty string: then the configured URL is not used and the
    component shows the configuration error. *)
Theorem empty_focus_url_is_not_replaced (u : string) (config err : option string)
    (st : GroupCallState) (uc : option UserChoices) (l p emb pw an : bool) :
  GroupCallView.resolveServiceURL (Some u) config = Some u
  /\ GroupCallView.resolveServiceURL None config = config
  /\ GroupCallView.render
       (GroupCallView.mkState (GroupCallView.resolveServiceURL (Some "") config)
          err st uc l p emb pw an)
     = GroupCallView.ErrorView "No livekit_service_url defined".
Proof. repeat split. Qed.

(** X4. After the leave callback, unless the call is still entered, the
    component shows the call-ended view or nothing; the callback navigates to
    the home page exactly when nothing is shown and the component is not
    embedded. *)
Theorem leave_then_view (env : Env) (u : string)
    (st : GroupCallState) (uc : option UserChoices) (l p pw emb : bool)
    (t0 : N) :
  u <> "" ->
  is_Entered st = false ->
  GroupCallView.left
    (afterHandler
       (GroupCallView.mkState (Some u) None st uc l p emb pw
          (posthogEnabled env))
       (run t0 (onLeave env pw emb))) = true
  /\ GroupCallView.render
       (afterHandler
          (GroupCallView.mkState (Some u) None st uc l p emb pw
             (posthogEnabled env))
          (run t0 (onLeave env pw emb)))
     = (if pw || (posthogEnabled env && negb emb)
        then GroupCallView.CallEndedView pw else GroupCallView.Null)
  /\ (In (Invoked (HistoryPush "/")) (events (run t0 (onLeave env pw emb)))
      <-> (GroupCallView.render
             (afterHandler
                (GroupCallView.mkState (Some u) None st uc l p emb pw
                   (posthogEnabled env))
                (run t0 (onLeave env pw emb)))
           = GroupCallView.Null
           /\ emb = false)).
Proof.
  intros Hu Hst. apply String.eqb_neq in Hu.
  rewrite onLeave_trace. unfold afterHandler, events, stamp.
  unfold GroupCallView.render.
  destruct (widget env), pw, emb, (posthogEnabled env); simpl;
    rewrite ?Hu, ?Hst; simpl;
    (split; [reflexivity |]); (split; [destruct uc; reflexivity |]);
    destruct uc; simpl; split;
    intuition (try discriminate; auto 10).
Qed.

Lemma leave_then_view_witness :
  GroupCallView.render
    (afterHandler lobbyState (run 0 (onLeave exampleEnv false false)))
  = GroupCallView.Null
  /\ In (Invoked (HistoryPush "/"))
        (events (run 0 (onLeave exampleEnv false false))).
Proof.
  destruct (leave_then_view exampleEnv "wss://sfu.example.org"
              NotEntered None false false false false 0%N
              ltac:(discriminate) eq_refl)
    as (_ & Hview & Hhome).
  split; [exact Hview |].
  apply Hhome. split; [exact Hview | reflexivity].
Defined.

(** X5. Entering from the lobby stores the choices given; once the call
    object reports [Entered], the active call is shown with exactly these
    choices, whatever was stored or shown before. *)
Theorem lobby_enter_then_active_call (u : string) (choices : UserChoices)
    (st : GroupCallState) (uc : option UserChoices) (l p emb pw an : bool)
    (t0 : N) :
  u <> "" ->
  GroupCallView.render
    (withState Entered
       (afterHandler
          (GroupCallView.mkState (Some u) None st uc l p emb pw an)
          (run t0 (onEnter choices))))
  = GroupCallView.ActiveCall u choices.
Proof.
  intros Hu. apply String.eqb_neq in Hu.
  unfold GroupCallView.render; simpl. rewrite Hu. reflexivity.
Qed.

Lemma lobby_enter_then_active_call_witness :
  GroupCallView.render
    (withState Entered
       (afterHandler lobbyState (run 0 (onEnter emptyChoices))))
  = GroupCallView.ActiveCall "wss://sfu.example.org" emptyChoices.
Proof.
  apply (lobby_enter_then_active_call "wss://sfu.example.org" emptyChoices
           NotEntered None false false false false false 0%N).
  discriminate.
Defined.

Lemma afterHandler_onJoin (env : Env) (ev : Request) (t0 : N)
    (s : GroupCallView.SessionViewState) :
  settles env GetLocalDevices = true ->
  afterHandler s (run t0 (onJoin env ev))
  = GroupCallView.mkState
      (GroupCallView.livekitServiceURL s) (GroupCallView.error s)
      (GroupCallView.state s) (Some (joinChoices env ev)) (GroupCallView.left s)
      (GroupCallView.preload s) (GroupCallView.isEmbedded s)
      (GroupCallView.isPasswordlessUser s) (GroupCallView.analyticsEnabled s).
Proof.
  intros Hdev. unfold afterHandler. rewrite onJoin_events by exact Hdev.
  unfold lookupEvents.
  destruct (not_strictly_null (audioInput (data ev)));
    destruct (truthy (findDeviceByName env (audioInput (data ev)) audioinput
                        (localDevices env)));
    destruct (not_strictly_null (videoInput (data ev)));
    destruct (truthy (findDeviceByName env (videoInput (data ev)) videoinput
                        (localDevices env)));
    destruct (settles env Enter); simpl;
    repeat match goal with
           | |- context [settles env ?c] => destruct (settles env c); simpl
           end;
    destruct s; reflexivity.
Qed.

(** X6. After a [JoinCall] whose device list resolved, once the call object
    reports [Entered] the active call is shown with the choices looked up,
    also when no device was resolved and the choices are the empty object,
    and whatever was stored or shown before. *)
Theorem join_then_active_call (env : Env) (ev : Request) (u : string)
    (st : GroupCallState) (uc : option UserChoices) (l p emb pw an : bool)
    (t0 : N) :
  u <> "" ->
  settles env GetLocalDevices = true ->
  GroupCallView.render
    (withState Entered
       (afterHandler
          (GroupCallView.mkState (Some u) None st uc l p emb pw an)
          (run t0 (onJoin env ev))))
  = GroupCallView.ActiveCall u (joinChoices env ev)
  /\ (data ev = mkJoinCallData JsNull JsNull ->
      joinChoices env ev = emptyChoices).
Proof.
  intros Hu Hdev. apply String.eqb_neq in Hu. split.
  - rewrite afterHandler_onJoin by exact Hdev.
    unfold GroupCallView.render; simpl. rewrite Hu. reflexivity.
  - intros Hdata. unfold joinChoices. rewrite Hdata. reflexivity.
Qed.

Lemma join_then_active_call_witness :
  GroupCallView.render
    (withState Entered
       (afterHandler
          (GroupCallView.mkState (Some "wss://sfu.example.org") None NotEntered
             None false true true false false)
          (run 0 (onJoin exampleEnv unknownJoin))))
  = GroupCallView.ActiveCall "wss://sfu.example.org" emptyChoices.
Proof.
  destruct (join_then_active_call exampleEnv unknownJoin
              "wss://sfu.example.org" NotEntered None false true true false
              false 0%N ltac:(discriminate) eq_refl) as [Hview _].
  exact Hview.
Defined.

(** ** Failure paths of the widget handlers *)

(** X7. When [Room.getLocalDevices()] rejects, the [JoinCall] handler stops
    there: no lookup, no choices stored, no [enter()], no telemetry and no
    reply; the state of the component is unchanged. *)
Theorem join_stops_without_device_list (env : Env) (ev : Request) (t0 : N)
    (s : GroupCallView.SessionViewState) :
  settles env GetLocalDevices = false ->
  events (run t0 (onJoin env ev))
  = [Invoked GetLocalDevices; Rejected GetLocalDevices]
  /\ storedChoices (run t0 (onJoin env ev)) = None
  /\ afterHandler s (run t0 (onJoin env ev)) = s.
Proof.
  intros Hdev. unfold storedChoices, afterHandler.
  rewrite onJoin_trace, Hdev. repeat split.
Qed.

Lemma join_stops_without_device_list_witness :
  events (run 0 (onJoin (exampleEnvSettling withoutDevices) exampleJoin))
  = [Invoked GetLocalDevices; Rejected GetLocalDevices].
Proof.
  apply (join_stops_without_device_list (exampleEnvSettling withoutDevices)
           exampleJoin 0%N lobbyState).
  reflexivity.
Defined.

(** X8. When [enter()] rejects, the [JoinCall] handler has stored the choices
    and called [enter()] once, and does nothing more: no "call started", no
    always-on-screen and no reply to the host. *)
Theorem join_stops_when_enter_rejects (env : Env) (ev : Request) (t0 : N) :
  settles env GetLocalDevices = true ->
  settles env Enter = false ->
  storedChoices (run t0 (onJoin env ev)) = Some (joinChoices env ev)
  /\ count isEnterInvoked (run t0 (onJoin env ev)) = 1
  /\ count isCallStarted (run t0 (onJoin env ev)) = 0
  /\ count isAlwaysOnScreen (run t0 (onJoin env ev)) = 0
  /\ count isReply (run t0 (onJoin env ev)) = 0
  /\ last (events (run t0 (onJoin env ev))) = Some (Rejected Enter).
Proof.
  intros Hdev Henter.
  split; [apply onJoin_storedChoices; exact Hdev |].
  unfold count. rewrite onJoin_events by exact Hdev. rewrite Henter.
  unfold lookupEvents.
  destruct (not_strictly_null (audioInput (data ev)));
    destruct (truthy (findDeviceByName env (audioInput (data ev)) audioinput
                        (localDevices env)));
    destruct (not_strictly_null (videoInput (data ev)));
    destruct (truthy (findDeviceByName env (videoInput (data ev)) videoinput
                        (localDevices env)));
    repeat split.
Qed.

Lemma join_stops_when_enter_rejects_witness :
  count isReply (run 0 (onJoin (exampleEnvSettling enterRejects) exampleJoin)) = 0
  /\ count isEnterInvoked
       (run 0 (onJoin (exampleEnvSettling enterRejects) exampleJoin)) = 1.
Proof.
  destruct (join_stops_when_enter_rejects (exampleEnvSettling enterRejects)
              exampleJoin 0%N eq_refl eq_refl)
    as (_ & Henter & _ & _ & Hreply & _).
  split; assumption.
Defined.

Lemma lookupChoice_holds (env : Env) (k : MediaDeviceKind) (input : JsString)
    (devices : list MediaDeviceInfo) (d : DeviceChoices) :
  lookupChoice env k input devices = Holds d ->
  enabled d = true /\ selectedId d <> "".
Proof.
  unfold lookupChoice. destruct (not_strictly_null input); [| discriminate].
  simpl. destruct (findDeviceByName env input k devices) as [x |];
    simpl; [| discriminate].
  destruct (String.eqb_spec x ""); simpl; [discriminate |].
  intros H. injection H as <-. simpl. split; [reflexivity | assumption].
Qed.

(** X9. Every entry the [JoinCall] handler stores is enabled and has a
    non-empty device id, and is never a key holding undefined. *)
Theorem join_choices_enabled (env : Env) (ev : Request) (t0 : N)
    (c : UserChoices) :
  storedChoices (run t0 (onJoin env ev)) = Some c ->
  (forall d, audio c = Holds d \/ video c = Holds d ->
     enabled d = true /\ selectedId d <> "")
  /\ audio c <> Undefined /\ video c <> Undefined.
Proof.
  intros Hc.
  destruct (settles env GetLocalDevices) eqn:Hdev.
  - rewrite onJoin_storedChoices in Hc by exact Hdev. injection Hc as <-.
    unfold joinChoices; simpl.
    split; [| split].
    + intros d [Hd | Hd]; exact (lookupChoice_holds _ _ _ _ _ Hd).
    + unfold lookupChoice. destruct (_ && _); discriminate.
    + unfold lookupChoice. destruct (_ && _); discriminate.
  - exfalso. unfold storedChoices in Hc.
    rewrite onJoin_trace, Hdev in Hc. discriminate.
Qed.

Lemma join_choices_enabled_witness :
  enabled {| selectedId := "mic-1"; enabled := true |} = true
  /\ selectedId {| selectedId := "mic-1"; enabled := true |} <> "".
Proof.
  destruct (join_choices_enabled exampleEnv exampleJoin 0%N
              {| audio := Holds {| selectedId := "mic-1"; enabled := true |};
                 video := Missing |} eq_refl) as [Hall _].
  apply Hall. left. reflexivity.
Defined.

(** X10. Whatever the payload and whatever settles, one [JoinCall] calls
    [enter()] at most once, replies at most once, looks each medium up at most
    once, and stores the choices exactly once before each [enter()]. *)
Theorem join_enters_at_most_once (env : Env) (ev : Request) (t0 : N) :
  count isEnterInvoked (run t0 (onJoin env ev)) <= 1
  /\ count isReply (run t0 (onJoin env ev)) <= 1
  /\ count (isLookup audioinput) (run t0 (onJoin env ev)) <= 1
  /\ count (isLookup videoinput) (run t0 (onJoin env ev)) <= 1
  /\ count isSetUserChoices (run t0 (onJoin env ev))
     = count isEnterInvoked (run t0 (onJoin env ev))
  /\ onlyAfter isEnterInvoked isSetUserChoices false
       (events (run t0 (onJoin env ev))) = true.
Proof.
  unfold count. rewrite onJoin_trace. join_cases env ev;
    repeat split; simpl; lia.
Qed.

(** X11. The [HangupCall] handler calls [leave()] first and then replies; it
    clears always-on-screen only once the reply resolved, and not at all when
    the reply rejects. *)
Theorem hangup_clears_after_reply (env : Env) (ev : Request) (t0 : N) :
  run t0 (onHangup env ev)
  = ([(t0, Invoked Leave); (t0, Invoked (TransportReply (requestId ev)))]
     ++ (if settles env (TransportReply (requestId ev))
         then stamp (t0 + latency env (TransportReply (requestId ev)))
                [Resolved (TransportReply (requestId ev));
                 Invoked (SetAlwaysOnScreen false)]
         else [((t0 + latency env (TransportReply (requestId ev)))%N,
                Rejected (TransportReply (requestId ev)))]))%list
  /\ count isAlwaysOnScreen (run t0 (onHangup env ev))
     = (if settles env (TransportReply (requestId ev)) then 1 else 0).
Proof.
  unfold count, run, onHangup, bind, await, invoke, stamp.
  destruct (settles env (TransportReply (requestId ev))); split; reflexivity.
Qed.

(** X12. Without a widget the leave callback waits for nothing and calls
    nothing of the widget: every event happens at the instant it started, and
    the trace is the state update, the "call ended" event not sent
    instantly, [leave()], and the navigation when it applies. *)
Theorem leave_without_widget (env : Env) (isPasswordlessUser isEmbedded : bool)
    (t0 : N) :
  widget env = false ->
  Forall (fun te => fst te = t0)
    (run t0 (onLeave env isPasswordlessUser isEmbedded))
  /\ count isWidgetCall (run t0 (onLeave env isPasswordlessUser isEmbedded)) = 0
  /\ events (run t0 (onLeave env isPasswordlessUser isEmbedded))
     = ([Invoked (SetLeft true);
         Invoked (CallEndedTrack (groupCallId env)
                    (participantCount (participants env)) false);
         Invoked Leave]
        ++ (if negb isPasswordlessUser && negb isEmbedded
               && negb (posthogEnabled env)
            then [Invoked (HistoryPush "/")] else []))%list.
Proof.
  intros Hw. rewrite onLeave_trace, Hw. unfold count, events, stamp.
  destruct isPasswordlessUser, isEmbedded, (posthogEnabled env); simpl;
    repeat split; repeat constructor.
Qed.

Lemma leave_without_widget_witness :
  count isWidgetCall (run 7 (onLeave standaloneEnv false false)) = 0
  /\ Forall (fun te => fst te = 7%N) (run 7 (onLeave standaloneEnv false false)).
Proof.
  destruct (leave_without_widget standaloneEnv false false 7%N eq_refl)
    as (Hnow & Hnone & _).
  split; assumption.
Defined.

(** X13. Waiting for a [JoinCall] and entering straight away exclude each
    other: whenever the join listener is registered, the embedded effect
    does nothing. *)
Theorem preload_excludes_auto_enter (env : Env) (isEmbedded preload : bool)
    (t0 : N) :
  is_Some (joinListener env preload) ->
  run t0 (enterEmbedded env isEmbedded preload) = [].
Proof.
  unfold joinListener. destruct (widget env), preload; simpl;
    intros [h Hh]; try discriminate.
  destruct isEmbedded; reflexivity.
Qed.

Lemma preload_excludes_auto_enter_witness :
  run 0 (enterEmbedded exampleEnv true true) = [].
Proof.
  apply (preload_excludes_auto_enter exampleEnv true true 0%N).
  eexists. reflexivity.
Defined.

Lemma participantCount_insert_witness :
  participantCount
    (<["@carol:example.org" := {[ "DEVICE4" := tt ]}]> (participants exampleEnv))
  = participantCount (participants exampleEnv)
    + size ({[ "DEVICE4" := tt ]} : gmap string unit).
Proof.
  apply (participantCount_insert (participants exampleEnv)
           "@carol:example.org" {[ "DEVICE4" := tt ]}).
  vm_compute. reflexivity.
Defined.

(** ** Effects with a cleanup: what holds over a lifetime *)

Section EffectFacts.
Context {R D A : Type} `{EqDecision D}.
Variable key : R -> D.
Variable setup : R -> list A.
Variable cleanup : R -> list A.

Lemma renderAll_cons (ran : option R) (r : R) (rest : list R) :
  React.renderAll key setup cleanup ran (r :: rest)
  = (fst (React.renderAll key setup cleanup
            (fst (React.commit key setup cleanup ran r)) rest),
     (snd (React.commit key setup cleanup ran r)
      ++ snd (React.renderAll key setup cleanup
                (fst (React.commit key setup cleanup ran r)) rest))%list).
Proof.
  simpl. destruct (React.commit key setup cleanup ran r) as [ran' done]. simpl.
  destruct (React.renderAll key setup cleanup ran' rest) as [ran'' more].
  reflexivity.
Qed.

(** The run the cleanup of which is pending has the dependencies of the
    latest render. *)
Lemma renderAll_last_key (renders : list R) (last : R) :
  forall ran, exists r0,
    fst (React.renderAll key setup cleanup ran (renders ++ [last])) = Some r0
    /\ key r0 = key last.
Proof.
  induction renders as [| r rest IH]; intros ran.
  - simpl. destruct ran as [r0 |]; simpl.
    + destruct (bool_decide (key r0 = key last)) eqn:Hk; simpl.
      * exists r0. split; [reflexivity |]. apply bool_decide_eq_true in Hk.
        exact Hk.
      * exists last. split; reflexivity.
    + exists last. split; reflexivity.
  - rewrite <- app_comm_cons, renderAll_cons. cbn [fst]. apply IH.
Qed.

(** It is one of the renders. *)
Lemma renderAll_ran_in (renders : list R) :
  forall ran r0,
    fst (React.renderAll key setup cleanup ran renders) = Some r0 ->
    ran = Some r0 \/ In r0 renders.
Proof.
  induction renders as [| r rest IH]; intros ran r0 Hr; [left; exact Hr |].
  rewrite renderAll_cons in Hr. cbn [fst] in Hr.
  apply IH in Hr as [Hr | Hr]; [| right; right; exact Hr].
  destruct ran as [r1 |]; simpl in Hr.
  - destruct (bool_decide (key r1 = key r)); simpl in Hr.
    + left. exact Hr.
    + injection Hr as ->. right; left; reflexivity.
  - injection Hr as ->. right; left; reflexivity.
Qed.

(** While the dependencies stay the same the effect runs once. *)
Lemma renderAll_stable (r : R) (rest : list R) :
  Forall (fun r' => key r' = key r) rest ->
  React.renderAll key setup cleanup (Some r) rest = (Some r, []).
Proof.
  induction 1 as [| r' rest Hk _ IH]; [reflexivity |].
  rewrite renderAll_cons. simpl.
  rewrite bool_decide_eq_true_2 by (symmetry; exact Hk). simpl.
  rewrite IH. reflexivity.
Qed.

Section Invariant.
Context {S : Type}.
Variable interp : S -> A -> S.
Variable Inv : option R -> S -> Prop.
Hypothesis Hfirst :
  forall s r, Inv None s -> Inv (Some r) (fold_left interp (setup r) s).
Hypothesis Hagain :
  forall s r0 r, Inv (Some r0) s -> key r0 <> key r ->
    Inv (Some r) (fold_left interp (cleanup r0 ++ setup r)%list s).

(** An invariant between the pending cleanup and what the actions act on
    that holds after every run of the effect holds after every render. *)
Lemma renderAll_invariant (renders : list R) :
  forall ran s,
    Inv ran s ->
    Inv (fst (React.renderAll key setup cleanup ran renders))
        (fold_left interp
           (snd (React.renderAll key setup cleanup ran renders)) s).
Proof.
  induction renders as [| r rest IH]; intros ran s Hinv; [exact Hinv |].
  rewrite renderAll_cons. cbn [fst snd]. rewrite fold_left_app.
  apply IH. destruct ran as [r0 |]; simpl.
  - destruct (bool_decide (key r0 = key r)) eqn:Hk; simpl.
    + exact Hinv.
    + apply Hagain; [exact Hinv |]. apply bool_decide_eq_false in Hk. exact Hk.
  - apply Hfirst. exact Hinv.
Qed.
End Invariant.
End EffectFacts.

Lemma lifetime_unfold {R D A : Type} `{EqDecision D} (key : R -> D)
    (setup cleanup : R -> list A) (renders : list R) :
  React.lifetime key setup cleanup renders
  = (snd (React.renderAll key setup cleanup None renders)
     ++ React.unmount cleanup
          (fst (React.renderAll key setup cleanup None renders)))%list.
Proof.
  unfold React.lifetime.
  destruct (React.renderAll key setup cleanup None renders). reflexivity.
Qed.

(** ** GroupCallView: the effects over the life of the component *)

(** X15. While the component is mounted, [window.groupCall] is the call of the
    latest render, whatever calls earlier renders had; after unmount the
    property is deleted. *)
Theorem window_groupCall_follows_mount (renders : list Lifecycle.Render)
    (last : Lifecycle.Render) (w0 : option nat) :
  fold_left Lifecycle.windowStep
    (snd (React.renderAll Lifecycle.windowKey Lifecycle.windowSetup
            Lifecycle.windowCleanup None (renders ++ [last])))
    w0
  = Some (Lifecycle.groupCall last)
  /\ fold_left Lifecycle.windowStep
       (React.lifetime Lifecycle.windowKey Lifecycle.windowSetup
          Lifecycle.windowCleanup (renders ++ [last]))
       w0
     = None.
Proof.
  set (Inv := fun (ran : option Lifecycle.Render) (w : option nat) =>
                match ran with
                | None => True
                | Some r0 => w = Some (Lifecycle.groupCall r0)
                end).
  assert (Hinv : Inv
            (fst (React.renderAll Lifecycle.windowKey Lifecycle.windowSetup
                    Lifecycle.windowCleanup None (renders ++ [last])))
            (fold_left Lifecycle.windowStep
               (snd (React.renderAll Lifecycle.windowKey Lifecycle.windowSetup
                       Lifecycle.windowCleanup None (renders ++ [last])))
               w0)).
  { apply (renderAll_invariant _ _ _ Lifecycle.windowStep Inv);
      [intros s r _; reflexivity | intros s r0 r _ _; reflexivity | exact I]. }
  destruct (renderAll_last_key Lifecycle.windowKey Lifecycle.windowSetup
              Lifecycle.windowCleanup renders last None) as (r0 & Hran & Hkey).
  rewrite lifetime_unfold, fold_left_app.
  rewrite Hran in *. unfold Lifecycle.windowKey in Hkey. simpl in Hinv.
  rewrite Hinv, Hkey. split; reflexivity.
Qed.

Lemma removeLastWhere_only (w : WidgetAction) (l : Lifecycle.Listener)
    (once : bool) :
  Lifecycle.removeLastWhere (Lifecycle.isFor w l) [Lifecycle.mkHeld w l once]
  = [].
Proof.
  simpl. unfold Lifecycle.isFor; simpl.
  rewrite !bool_decide_eq_true_2 by reflexivity. reflexivity.
Qed.

(** X16. While the component is mounted, the emitter holds its [JoinCall]
    listener exactly when there is a widget and the latest render is in
    preload mode, and then only one, registered with [on] for the call and
    the [enter] of that render, so that the delivery of a [JoinCall] leaves it
    in place; after unmount it holds none. *)
Theorem join_listener_follows_preload (env : Env)
    (renders : list Lifecycle.Render) (last : Lifecycle.Render) :
  fold_left Lifecycle.emitterStep
    (snd (React.renderAll Lifecycle.joinKey (Lifecycle.joinSetup env)
            (Lifecycle.joinCleanup env) None (renders ++ [last])))
    []
  = (if widget env && Lifecycle.preload last
     then [Lifecycle.mkHeld JoinCall
             (Lifecycle.OnJoin (Lifecycle.groupCall last) (Lifecycle.enter last))
             false]
     else [])
  /\ fold_left Lifecycle.emitterStep
       (snd (React.renderAll Lifecycle.joinKey (Lifecycle.joinSetup env)
               (Lifecycle.joinCleanup env) None (renders ++ [last]))
        ++ [Lifecycle.Emit JoinCall])%list
       []
     = fold_left Lifecycle.emitterStep
         (snd (React.renderAll Lifecycle.joinKey (Lifecycle.joinSetup env)
                 (Lifecycle.joinCleanup env) None (renders ++ [last])))
         []
  /\ fold_left Lifecycle.emitterStep
       (React.lifetime Lifecycle.joinKey (Lifecycle.joinSetup env)
          (Lifecycle.joinCleanup env) (renders ++ [last]))
       []
     = [].
Proof.
  set (held := fun r0 : Lifecycle.Render =>
                 if widget env && Lifecycle.preload r0
                 then [Lifecycle.mkHeld JoinCall
                         (Lifecycle.OnJoin (Lifecycle.groupCall r0)
                            (Lifecycle.enter r0)) false]
                 else []).
  set (Inv := fun (ran : option Lifecycle.Render)
                  (ls : list Lifecycle.Held) =>
                ls = match ran with
                     | None => []
                     | Some r0 => held r0
                     end).
  assert (Hinv : Inv
            (fst (React.renderAll Lifecycle.joinKey (Lifecycle.joinSetup env)
                    (Lifecycle.joinCleanup env) None (renders ++ [last])))
            (fold_left Lifecycle.emitterStep
               (snd (React.renderAll Lifecycle.joinKey (Lifecycle.joinSetup env)
                       (Lifecycle.joinCleanup env) None (renders ++ [last])))
               [])).
  { apply (renderAll_invariant _ _ _ Lifecycle.emitterStep Inv);
      [| | reflexivity].
    - intros s r ->. unfold Inv, held, Lifecycle.joinSetup.
      destruct (widget env && Lifecycle.preload r); reflexivity.
    - intros s r0 r -> _. unfold Inv, held, Lifecycle.joinSetup,
        Lifecycle.joinCleanup.
      rewrite fold_left_app.
      destruct (widget env && Lifecycle.preload r0);
        destruct (widget env && Lifecycle.preload r);
        cbn [fold_left Lifecycle.emitterStep app];
        rewrite ?removeLastWhere_only; reflexivity. }
  destruct (renderAll_last_key Lifecycle.joinKey (Lifecycle.joinSetup env)
              (Lifecycle.joinCleanup env) renders last None)
    as (r0 & Hran & Hkey).
  rewrite lifetime_unfold, !fold_left_app.
  rewrite Hran in *. unfold Inv in Hinv. rewrite Hinv.
  unfold Lifecycle.joinKey in Hkey. injection Hkey as Hg Hp He.
  unfold held. rewrite Hg, Hp, He. split; [reflexivity | split].
  - destruct (widget env && Lifecycle.preload last); reflexivity.
  - unfold React.unmount, Lifecycle.joinCleanup. rewrite Hg, Hp, He.
    destruct (widget env && Lifecycle.preload last); [| reflexivity].
    cbn [fold_left Lifecycle.emitterStep]. apply removeLastWhere_only.
Qed.

Lemma hangupLife_cons_render (env : Env) (ran : option Lifecycle.Render)
    (r : Lifecycle.Render) (rest : list Lifecycle.Occurrence) :
  Lifecycle.hangupLife env ran (Lifecycle.Rendered r :: rest)
  = (fst (Lifecycle.hangupLife env
            (fst (React.commit Lifecycle.hangupKey (Lifecycle.hangupSetup env)
                    (Lifecycle.hangupCleanup env) ran r)) rest),
     (snd (React.commit Lifecycle.hangupKey (Lifecycle.hangupSetup env)
             (Lifecycle.hangupCleanup env) ran r)
      ++ snd (Lifecycle.hangupLife env
                (fst (React.commit Lifecycle.hangupKey
                        (Lifecycle.hangupSetup env)
                        (Lifecycle.hangupCleanup env) ran r)) rest))%list).
Proof.
  simpl. destruct (React.commit _ _ _ ran r) as [ran' done]. simpl.
  destruct (Lifecycle.hangupLife env ran' rest). reflexivity.
Qed.

Lemma hangupLife_cons_delivered (env : Env) (ran : option Lifecycle.Render)
    (a : WidgetAction) (rest : list Lifecycle.Occurrence) :
  Lifecycle.hangupLife env ran (Lifecycle.Delivered a :: rest)
  = (fst (Lifecycle.hangupLife env ran rest),
     Lifecycle.Emit a :: snd (Lifecycle.hangupLife env ran rest)).
Proof.
  simpl. destruct (Lifecycle.hangupLife env ran rest). reflexivity.
Qed.

Lemma hangupLife_app (env : Env) (os os' : list Lifecycle.Occurrence) :
  forall ran,
    Lifecycle.hangupLife env ran (os ++ os')
    = (fst (Lifecycle.hangupLife env
              (fst (Lifecycle.hangupLife env ran os)) os'),
       (snd (Lifecycle.hangupLife env ran os)
        ++ snd (Lifecycle.hangupLife env
                  (fst (Lifecycle.hangupLife env ran os)) os'))%list).
Proof.
  induction os as [| o os IH]; intros ran.
  - simpl. destruct (Lifecycle.hangupLife env ran os'). reflexivity.
  - rewrite <- app_comm_cons. destruct o as [r | a].
    + rewrite !hangupLife_cons_render, IH. cbn [fst snd].
      rewrite app_assoc. reflexivity.
    + rewrite !hangupLife_cons_delivered, IH. reflexivity.
Qed.

Lemma hangupLife_renders (env : Env) (renders : list Lifecycle.Render) :
  forall ran,
    Lifecycle.hangupLife env ran (map Lifecycle.Rendered renders)
    = React.renderAll Lifecycle.hangupKey (Lifecycle.hangupSetup env)
        (Lifecycle.hangupCleanup env) ran renders.
Proof.
  induction renders as [| r rest IH]; intros ran; [reflexivity |].
  rewrite map_cons, hangupLife_cons_render, renderAll_cons, IH. reflexivity.
Qed.

Lemma hangupHeld_commit (env : Env) (ran : option Lifecycle.Render)
    (r : Lifecycle.Render) (ls : list Lifecycle.Held) :
  hangupHeld env ran ls ->
  hangupHeld env
    (fst (React.commit Lifecycle.hangupKey (Lifecycle.hangupSetup env)
            (Lifecycle.hangupCleanup env) ran r))
    (fold_left Lifecycle.emitterStep
       (snd (React.commit Lifecycle.hangupKey (Lifecycle.hangupSetup env)
               (Lifecycle.hangupCleanup env) ran r)) ls)
  /\ (widget env && is_Entered (Lifecycle.state r) = false ->
      fold_left Lifecycle.emitterStep
        (snd (React.commit Lifecycle.hangupKey (Lifecycle.hangupSetup env)
                (Lifecycle.hangupCleanup env) ran r)) ls = []).
Proof.
  assert (Hsetup : forall r',
            hangupHeld env (Some r')
              (fold_left Lifecycle.emitterStep (Lifecycle.hangupSetup env r') [])
            /\ (widget env && is_Entered (Lifecycle.state r') = false ->
                fold_left Lifecycle.emitterStep
                  (Lifecycle.hangupSetup env r') [] = [])).
  { intros r'. unfold Lifecycle.hangupSetup.
    destruct (widget env && is_Entered (Lifecycle.state r')) eqn:Hc; simpl.
    - split; [| discriminate]. right. exists r'. auto.
    - split; [left |]; reflexivity. }
  intros Hheld. destruct ran as [r0 |]; simpl.
  - destruct (bool_decide (Lifecycle.hangupKey r0 = Lifecycle.hangupKey r))
      eqn:Hk; simpl.
    + split; [exact Hheld |]. intros Hc.
      destruct Hheld as [-> | (r1 & Hr1 & Hc1 & _)]; [reflexivity |].
      injection Hr1 as <-. apply bool_decide_eq_true in Hk.
      unfold Lifecycle.hangupKey in Hk. injection Hk as _ Hs _.
      rewrite Hs in Hc1. congruence.
    + rewrite fold_left_app.
      replace (fold_left Lifecycle.emitterStep (Lifecycle.hangupCleanup env r0) ls)
        with (@nil Lifecycle.Held); [apply Hsetup |].
      unfold Lifecycle.hangupCleanup.
      destruct Hheld as [-> | (r1 & Hr1 & Hc1 & ->)].
      * destruct (widget env && is_Entered (Lifecycle.state r0)); reflexivity.
      * injection Hr1 as <-. rewrite Hc1.
        cbn [fold_left Lifecycle.emitterStep].
        symmetry. apply removeLastWhere_only.
  - destruct Hheld as [-> | (r1 & Hr1 & _)]; [apply Hsetup | discriminate].
Qed.

Lemma hangupHeld_life (env : Env) (os : list Lifecycle.Occurrence) :
  forall ran ls,
    hangupHeld env ran ls ->
    hangupHeld env (fst (Lifecycle.hangupLife env ran os))
      (fold_left Lifecycle.emitterStep
         (snd (Lifecycle.hangupLife env ran os)) ls).
Proof.
  induction os as [| o os IH]; intros ran ls Hheld; [exact Hheld |].
  destruct o as [r | a].
  - rewrite hangupLife_cons_render. cbn [fst snd]. rewrite fold_left_app.
    apply IH. apply hangupHeld_commit. exact Hheld.
  - rewrite hangupLife_cons_delivered. cbn [fst snd fold_left].
    apply IH.
    destruct Hheld as [-> | (r1 & Hr1 & Hc1 & ->)]; [left; reflexivity |].
    destruct a; simpl.
    + right. exists r1. auto.
    + left. reflexivity.
Qed.

(** X17. While the component is mounted and no [HangupCall] has been
    delivered, the emitter holds the [HangupCall] listener exactly when there
    is a widget and the latest render saw the call entered, registered with
    [once].  With deliveries in between it never holds more than one; right
    after a [HangupCall] was delivered it holds none, also when the latest
    render saw the call entered; after a render that did not see the call
    entered it holds none; after unmount it holds none. *)
Theorem hangup_listener_follows_entered (env : Env)
    (renders : list Lifecycle.Render) (last : Lifecycle.Render)
    (os : list Lifecycle.Occurrence) :
  fold_left Lifecycle.emitterStep
    (snd (Lifecycle.hangupLife env None
            (map Lifecycle.Rendered (renders ++ [last]))))
    []
  = (if widget env && is_Entered (Lifecycle.state last)
     then [Lifecycle.mkHeld HangupCall
             (Lifecycle.OnHangup (Lifecycle.leave last)) true]
     else [])
  /\ length (fold_left Lifecycle.emitterStep
               (snd (Lifecycle.hangupLife env None os)) []) <= 1
  /\ fold_left Lifecycle.emitterStep
       (snd (Lifecycle.hangupLife env None
               (os ++ [Lifecycle.Delivered HangupCall])))
       [] = []
  /\ (widget env && is_Entered (Lifecycle.state last) = false ->
      fold_left Lifecycle.emitterStep
        (snd (Lifecycle.hangupLife env None (os ++ [Lifecycle.Rendered last])))
        [] = [])
  /\ fold_left Lifecycle.emitterStep
       (snd (Lifecycle.hangupLife env None os)
        ++ React.unmount (Lifecycle.hangupCleanup env)
             (fst (Lifecycle.hangupLife env None os)))%list
       [] = [].
Proof.
  pose proof (hangupHeld_life env os None [] (or_introl eq_refl)) as Hos.
  split; [| split; [| split; [| split]]].
  - rewrite hangupLife_renders.
    set (held := fun r0 : Lifecycle.Render =>
                   if widget env && is_Entered (Lifecycle.state r0)
                   then [Lifecycle.mkHeld HangupCall
                           (Lifecycle.OnHangup (Lifecycle.leave r0)) true]
                   else []).
    set (Inv := fun (ran : option Lifecycle.Render)
                    (ls : list Lifecycle.Held) =>
                  ls = match ran with
                       | None => []
                       | Some r0 => held r0
                       end).
    assert (Hinv : Inv
              (fst (React.renderAll Lifecycle.hangupKey
                      (Lifecycle.hangupSetup env)
                      (Lifecycle.hangupCleanup env) None (renders ++ [last])))
              (fold_left Lifecycle.emitterStep
                 (snd (React.renderAll Lifecycle.hangupKey
                         (Lifecycle.hangupSetup env)
                         (Lifecycle.hangupCleanup env) None (renders ++ [last])))
                 [])).
    { apply (renderAll_invariant _ _ _ Lifecycle.emitterStep Inv);
        [| | reflexivity].
      - intros s r ->. unfold Inv, held, Lifecycle.hangupSetup.
        destruct (widget env && is_Entered (Lifecycle.state r)); reflexivity.
      - intros s r0 r -> _. unfold Inv, held, Lifecycle.hangupSetup,
          Lifecycle.hangupCleanup.
        rewrite fold_left_app.
        destruct (widget env && is_Entered (Lifecycle.state r0));
          destruct (widget env && is_Entered (Lifecycle.state r));
          cbn [fold_left Lifecycle.emitterStep app];
          rewrite ?removeLastWhere_only; reflexivity. }
    destruct (renderAll_last_key Lifecycle.hangupKey (Lifecycle.hangupSetup env)
                (Lifecycle.hangupCleanup env) renders last None)
      as (r0 & Hran & Hkey).
    rewrite Hran in Hinv. unfold Inv in Hinv. rewrite Hinv.
    unfold Lifecycle.hangupKey in Hkey. injection Hkey as Hg Hs Hl.
    unfold held. rewrite Hs, Hl. reflexivity.
  - destruct Hos as [-> | (r0 & _ & _ & ->)]; simpl; lia.
  - rewrite hangupLife_app. cbn [snd]. rewrite fold_left_app.
    rewrite hangupLife_cons_delivered. cbn [snd Lifecycle.hangupLife fold_left].
    destruct Hos as [-> | (r0 & _ & _ & ->)]; reflexivity.
  - intros Hc. rewrite hangupLife_app. cbn [snd]. rewrite fold_left_app.
    rewrite hangupLife_cons_render. cbn [snd Lifecycle.hangupLife].
    rewrite app_nil_r.
    apply (hangupHeld_commit env _ last _ Hos). exact Hc.
  - rewrite fold_left_app.
    destruct Hos as [-> | (r0 & -> & Hc & ->)].
    + destruct (fst (Lifecycle.hangupLife env None os)) as [r0 |];
        [| reflexivity].
      unfold React.unmount, Lifecycle.hangupCleanup.
      destruct (widget env && is_Entered (Lifecycle.state r0)); reflexivity.
    + unfold React.unmount, Lifecycle.hangupCleanup. rewrite Hc.
      cbn [fold_left Lifecycle.emitterStep]. apply removeLastWhere_only.
Qed.

Lemma hangup_listener_follows_entered_witness :
  fold_left Lifecycle.emitterStep
    (snd (Lifecycle.hangupLife exampleEnv None
            ([Lifecycle.Rendered (Lifecycle.mkRender 1 1 1 Entered false true);
              Lifecycle.Delivered HangupCall]
             ++ [Lifecycle.Rendered
                   (Lifecycle.mkRender 1 1 1 NotEntered false true)])))
    [] = [].
Proof.
  destruct (hangup_listener_follows_entered exampleEnv []
              (Lifecycle.mkRender 1 1 1 NotEntered false true)
              [Lifecycle.Rendered (Lifecycle.mkRender 1 1 1 Entered false true);
               Lifecycle.Delivered HangupCall])
    as (_ & _ & _ & Hgone & _).
  apply Hgone. reflexivity.
Defined.

(** X18. The embedded effect calls [enter()] once however often the component
    renders again with the same call, flags and [enter] callback; a render
    with another [enter] callback calls [enter()] again. *)
Theorem embedded_enter_per_dependency_change (env : Env)
    (r r' : Lifecycle.Render) (rest : list Lifecycle.Render) :
  Forall (fun x => Lifecycle.embeddedKey x = Lifecycle.embeddedKey r) rest ->
  Lifecycle.isEmbedded r = true -> Lifecycle.preload r = false ->
  Lifecycle.isEmbedded r' = true -> Lifecycle.preload r' = false ->
  Lifecycle.enter r' <> Lifecycle.enter r ->
  length (filter (fun e => isEnterInvoked e = true)
            (React.lifetime Lifecycle.embeddedKey (Lifecycle.embeddedSetup env)
               Lifecycle.embeddedCleanup (r :: rest))) = 1
  /\ length (filter (fun e => isEnterInvoked e = true)
               (React.lifetime Lifecycle.embeddedKey
                  (Lifecycle.embeddedSetup env)
                  Lifecycle.embeddedCleanup (r :: rest ++ [r']))) = 2.
Proof.
  intros Hsame He Hp He' Hp' Hother.
  rewrite !lifetime_unfold, !renderAll_cons. cbn [React.commit fst snd].
  split.
  - rewrite (renderAll_stable _ _ _ r rest Hsame). cbn [fst snd].
    unfold Lifecycle.embeddedSetup, Lifecycle.embeddedCleanup. simpl.
    rewrite He, Hp. reflexivity.
  - assert (Hrun : React.renderAll Lifecycle.embeddedKey
                     (Lifecycle.embeddedSetup env) Lifecycle.embeddedCleanup
                     (Some r) (rest ++ [r'])
                   = (Some r', Lifecycle.embeddedSetup env r')).
    { clear - Hsame Hother. induction Hsame as [| x rest Hk _ IH].
      - simpl. rewrite bool_decide_eq_false_2; [now rewrite app_nil_r |].
        unfold Lifecycle.embeddedKey. intros H. injection H as _ _ _ H.
        congruence.
      - rewrite <- app_comm_cons, renderAll_cons. simpl.
        rewrite bool_decide_eq_true_2 by (symmetry; exact Hk). simpl.
        rewrite IH. reflexivity. }
    rewrite Hrun. cbn [fst snd].
    unfold Lifecycle.embeddedSetup, Lifecycle.embeddedCleanup. simpl.
    rewrite He, Hp, He', Hp'. reflexivity.
Qed.

Lemma embedded_enter_per_dependency_change_witness :
  length (filter (fun e => isEnterInvoked e = true)
            (React.lifetime Lifecycle.embeddedKey
               (Lifecycle.embeddedSetup exampleEnv) Lifecycle.embeddedCleanup
               [Lifecycle.mkRender 1 1 1 NotEntered false true;
                Lifecycle.mkRender 1 1 1 Entering false true])) = 1
  /\ length (filter (fun e => isEnterInvoked e = true)
               (React.lifetime Lifecycle.embeddedKey
                  (Lifecycle.embeddedSetup exampleEnv)
                  Lifecycle.embeddedCleanup
                  [Lifecycle.mkRender 1 1 1 NotEntered false true;
                   Lifecycle.mkRender 1 1 1 Entering false true;
                   Lifecycle.mkRender 1 2 1 Entered false true])) = 2.
Proof.
  apply (embedded_enter_per_dependency_change exampleEnv
           (Lifecycle.mkRender 1 1 1 NotEntered false true)
           (Lifecycle.mkRender 1 2 1 Entered false true)
           [Lifecycle.mkRender 1 1 1 Entering false true]);
    try reflexivity.
  - repeat constructor.
  - discriminate.
Defined.

(** ** VideoPreview: the video element *)

(** X19. While the preview is mounted the video element shows either nothing
    or the video track of the latest render, never an earlier one; it shows
    that track when the element was there at every render; after unmount it
    shows nothing. *)
Theorem video_element_never_stale (renders : list Surface.Render)
    (last : Surface.Render) :
  (fold_left Surface.shownStep
     (snd (React.renderAll Surface.attachKey Surface.attachSetup
             Surface.attachCleanup None (renders ++ [last])))
     None = None
   \/ fold_left Surface.shownStep
        (snd (React.renderAll Surface.attachKey Surface.attachSetup
                Surface.attachCleanup None (renders ++ [last])))
        None = Surface.videoTrack last)
  /\ (Forall (fun r => Surface.videoElCurrent r = true) (renders ++ [last]) ->
      fold_left Surface.shownStep
        (snd (React.renderAll Surface.attachKey Surface.attachSetup
                Surface.attachCleanup None (renders ++ [last])))
        None = Surface.videoTrack last)
  /\ fold_left Surface.shownStep
       (React.lifetime Surface.attachKey Surface.attachSetup
          Surface.attachCleanup (renders ++ [last]))
       None = None.
Proof.
  set (Inv := fun (ran : option Surface.Render) (shown : option nat) =>
                shown = match ran with
                        | None => None
                        | Some r0 => if Surface.videoElCurrent r0
                                     then Surface.videoTrack r0 else None
                        end).
  assert (Hsetup : forall r,
            fold_left Surface.shownStep (Surface.attachSetup r) None
            = if Surface.videoElCurrent r then Surface.videoTrack r else None).
  { intros [[t |] []]; reflexivity. }
  assert (Hinv : Inv
            (fst (React.renderAll Surface.attachKey Surface.attachSetup
                    Surface.attachCleanup None (renders ++ [last])))
            (fold_left Surface.shownStep
               (snd (React.renderAll Surface.attachKey Surface.attachSetup
                       Surface.attachCleanup None (renders ++ [last])))
               None)).
  { apply (renderAll_invariant _ _ _ Surface.shownStep Inv); [| | reflexivity].
    - intros s r ->. apply Hsetup.
    - intros s r0 r -> _. unfold Inv. rewrite fold_left_app.
      replace (fold_left Surface.shownStep (Surface.attachCleanup r0) _)
        with (@None nat); [apply Hsetup |].
      destruct r0 as [[t |] []]; simpl; [| reflexivity..].
      rewrite bool_decide_eq_true_2 by reflexivity. reflexivity. }
  destruct (renderAll_last_key Surface.attachKey Surface.attachSetup
              Surface.attachCleanup renders last None) as (r0 & Hran & Hkey).
  pose proof (renderAll_ran_in Surface.attachKey Surface.attachSetup
                Surface.attachCleanup (renders ++ [last]) None r0 Hran)
    as [Hnone | Hin]; [discriminate |].
  rewrite lifetime_unfold, fold_left_app.
  rewrite Hran in *. unfold Inv in Hinv. rewrite Hinv.
  unfold Surface.attachKey in Hkey. rewrite Hkey.
  split; [| split].
  - destruct (Surface.videoElCurrent r0); [right | left]; reflexivity.
  - intros Hall. rewrite Forall_forall in Hall.
    rewrite (Hall r0) by (apply list_elem_of_In; exact Hin). reflexivity.
  - unfold React.unmount, Surface.attachCleanup. rewrite Hkey.
    destruct (Surface.videoElCurrent r0), (Surface.videoTrack last) as [t |];
      simpl; try reflexivity.
    rewrite bool_decide_eq_true_2 by reflexivity. reflexivity.
Qed.

Lemma video_element_never_stale_witness :
  fold_left Surface.shownStep
    (snd (React.renderAll Surface.attachKey Surface.attachSetup
            Surface.attachCleanup None
            [Surface.mkRender None true; Surface.mkRender (Some 1) true;
             Surface.mkRender (Some 2) true]))
    None = Some 2.
Proof.
  destruct (video_element_never_stale
              [Surface.mkRender None true; Surface.mkRender (Some 1) true]
              (Surface.mkRender (Some 2) true)) as (_ & Hshown & _).
  apply Hshown. repeat constructor.
Defined.

(** ** VideoPreview: device selection and emission *)







(** X21. Rendering again with the same props and hook values emits nothing,
    and passes the same options and permission flag as before. *)
Theorem rerender_emits_nothing (h : VideoPreview.Hooks) (i : VideoPreview.Inputs) :
  VideoPreview.emitted
    (snd (VideoPreview.render (fst (VideoPreview.render h i)) i)) = None
  /\ VideoPreview.previewOptions
       (snd (VideoPreview.render (fst (VideoPreview.render h i)) i))
     = VideoPreview.previewOptions (snd (VideoPreview.render h i))
  /\ VideoPreview.requestPermissions
       (snd (VideoPreview.render (fst (VideoPreview.render h i)) i))
     = VideoPreview.requestPermissions (snd (VideoPreview.render h i)).
Proof.
  simpl. rewrite bool_decide_eq_true_2 by reflexivity. repeat split.
Qed.

(** X22. Pressing the microphone button after a render makes the next render
    emit choices whose audio entry, read from the emitted object, is the one
    asked for from the inverted audio flag and the audio id, and whose video
    entry is the one asked for from the unchanged video flag and the video
    id.  The same holds for the video button with the roles exchanged.  A
    second press of the same button before the next render changes nothing
    more, since both presses negate the flag the same render read.  Neither
    press changes the ids passed to [usePreviewTracks]. *)
Theorem press_flips_one_flag (h : VideoPreview.Hooks) (i : VideoPreview.Inputs) :
  (exists c,
     VideoPreview.emitted
       (snd (VideoPreview.render
               (fst (VideoPreview.step (fst (VideoPreview.render h i))
                       VideoPreview.PressMic)) i))
     = Some c
     /\ read (video c)
        = expectedEntry (VideoPreview.videoEnabled h)
            (VideoPreview.videoIn_selectedId i)
     /\ read (audio c)
        = expectedEntry (negb (VideoPreview.audioEnabled h))
            (VideoPreview.audioIn_selectedId i))
  /\ (exists c,
        VideoPreview.emitted
          (snd (VideoPreview.render
                  (fst (VideoPreview.step (fst (VideoPreview.render h i))
                          VideoPreview.PressVideo)) i))
        = Some c
        /\ read (video c)
           = expectedEntry (negb (VideoPreview.videoEnabled h))
               (VideoPreview.videoIn_selectedId i)
        /\ read (audio c)
           = expectedEntry (VideoPreview.audioEnabled h)
               (VideoPreview.audioIn_selectedId i))
  /\ fst (VideoPreview.step
            (fst (VideoPreview.step (fst (VideoPreview.render h i))
                    VideoPreview.PressMic))
            VideoPreview.PressMic)
     = fst (VideoPreview.step (fst (VideoPreview.render h i))
              VideoPreview.PressMic)
  /\ fst (VideoPreview.step
            (fst (VideoPreview.step (fst (VideoPreview.render h i))
                    VideoPreview.PressVideo))
            VideoPreview.PressVideo)
     = fst (VideoPreview.step (fst (VideoPreview.render h i))
              VideoPreview.PressVideo)
  /\ VideoPreview.previewOptions
       (snd (VideoPreview.render
               (fst (VideoPreview.step (fst (VideoPreview.render h i))
                       VideoPreview.PressMic)) i))
     = VideoPreview.previewOptions (snd (VideoPreview.render h i))
  /\ VideoPreview.previewOptions
       (snd (VideoPreview.render
               (fst (VideoPreview.step (fst (VideoPreview.render h i))
                       VideoPreview.PressVideo)) i))
     = VideoPreview.previewOptions (snd (VideoPreview.render h i)).
Proof.
  simpl. repeat split.
  - rewrite bool_decide_eq_false_2.
    + eexists. split; [reflexivity |].
      unfold VideoPreview.choicesOf. cbn [audio video].
      split; apply read_createChoices.
    + intros H. injection H as H. destruct (VideoPreview.audioEnabled h);
        discriminate.
  - rewrite bool_decide_eq_false_2.
    + eexists. split; [reflexivity |].
      unfold VideoPreview.choicesOf. cbn [audio video].
      split; apply read_createChoices.
    + intros H. injection H as H. destruct (VideoPreview.videoEnabled h);
        discriminate.
Qed.

(** X23. The track picked for a kind is of that kind, is one of the tracks,
    and is the first of that kind: no track before it in the array is. *)
Theorem trackOfKind_first_of_kind (ts : option (list VideoPreview.LocalTrack))
    (t : VideoPreview.LocalTrack) :
  VideoPreview.trackOfKind VideoPreview.isVideo ts = Some t ->
  VideoPreview.kind t = VideoPreview.Video
  /\ exists before after,
       ts = Some (before ++ t :: after)%list
       /\ Forall (fun x => VideoPreview.kind x = VideoPreview.Audio) before.
Proof.
  destruct ts as [l |]; simpl; [| discriminate].
  induction l as [| x l IH]; simpl; [discriminate |].
  destruct x as [[] d]; simpl.
  - intros H. destruct (IH H) as (Hk & before & after & Hl & Hb).
    split; [exact Hk |].
    injection Hl as ->.
    exists (VideoPreview.mkTrack VideoPreview.Audio d :: before), after.
    split; [reflexivity | constructor; [reflexivity | exact Hb]].
  - intros H. injection H as <-. split; [reflexivity |].
    exists [], l. split; [reflexivity | constructor].
Qed.

Lemma trackOfKind_first_of_kind_witness :
  VideoPreview.kind (VideoPreview.mkTrack VideoPreview.Video (Some "cam-1"))
  = VideoPreview.Video.
Proof.
  destruct (trackOfKind_first_of_kind
              (Some [VideoPreview.mkTrack VideoPreview.Audio (Some "mic-1");
                     VideoPreview.mkTrack VideoPreview.Video (Some "cam-1");
                     VideoPreview.mkTrack VideoPreview.Video (Some "cam-2")])
              (VideoPreview.mkTrack VideoPreview.Video (Some "cam-1"))
              eq_refl) as [Hkind _].
  exact Hkind.
Defined.

Lemma active_call_inversion_witness :
  GroupCallView.render
    (GroupCallView.mkState (Some "wss://sfu.example.org") None Entered
       (Some emptyChoices) true false true false false)
  = GroupCallView.ActiveCall "wss://sfu.example.org" emptyChoices.
Proof.
  apply (active_call_inversion
           (GroupCallView.mkState (Some "wss://sfu.example.org") None Entered
              (Some emptyChoices) true false true false false)
           "wss://sfu.example.org" emptyChoices).
  repeat split. discriminate.
Defined.
